(** * Experiment attribution queries of the Optimizely labs notebooks

    A shallow embedding of the Spark SQL statements of

    - the "Computing Experiment Datasets #1: Experiment Subjects" notebook
      (the [decisions] view, [experiment_subjects] and the [subject_count]
      rollup), and
    - the "Working with Enriched Events data using Spark SQL" notebook
      (unique visitors and conversion counts, Optimizely Web and
      Optimizely Full Stack).

    A table is a list of rows (a bag, in the order Spark would produce it
    with a stable sort); every SQL operator used by the notebooks is a list
    function of module [Sql]; every query is the composition of these
    operators in the order SQL evaluates its clauses
    (FROM/JOIN, WHERE, GROUP BY, SELECT, ORDER BY).

    Modelling assumptions: columns are non-NULL; a timestamp is an instant
    (an integer), and the window bounds that the notebooks splice into the
    SQL text as timestamp literals are instants too; identifiers and names
    are strings. *)

From Stdlib Require Import Ascii String List ZArith Bool Arith Lia Permutation Sorted.
Import ListNotations.

Set Implicit Arguments.

(** ** The SQL operators the notebooks use *)

Module Sql.

(** [t BETWEEN lo AND hi]: both bounds inclusive. *)
Definition between (t lo hi : Z) : bool :=
  ((lo <=? t) && (t <=? hi))%Z.

(** [ORDER BY]: a stable insertion sort for the (boolean) order [leb]. *)
Fixpoint insert_by {A : Type} (leb : A -> A -> bool) (x : A) (l : list A) : list A :=
  match l with
  | [] => [x]
  | y :: r => if leb x y then x :: y :: r else y :: insert_by leb x r
  end.

Definition order_by {A : Type} (leb : A -> A -> bool) (l : list A) : list A :=
  fold_right (insert_by leb) [] l.

(** Sort keys: [ASC], [DESC] and a list of keys compared left to right. *)
Definition asc {A : Type} (col : A -> string) (x y : A) : comparison :=
  String.compare (col x) (col y).

Definition desc {A : Type} (col : A -> string) (x y : A) : comparison :=
  CompOpp (String.compare (col x) (col y)).

Fixpoint lexicographic {A : Type} (keys : list (A -> A -> comparison)) (x y : A) : comparison :=
  match keys with
  | [] => Eq
  | k :: ks => match k x y with Eq => lexicographic ks x y | c => c end
  end.

Definition leb_of {A : Type} (cmp : A -> A -> comparison) (x y : A) : bool :=
  match cmp x y with Gt => false | _ => true end.

(** [RANK() OVER (PARTITION BY ... ORDER BY ts ASC)]: one plus the number of
    rows of the same partition that come strictly before the row. *)
Definition rank {A : Type} (same_partition : A -> A -> bool) (ts : A -> Z)
    (rows : list A) (r : A) : nat :=
  S (length (filter (fun r' => same_partition r r' && (ts r' <? ts r)%Z) rows)).

(** [MIN(...)] of a column: NULL ([None]) on no rows. *)
Definition minimum (l : list Z) : option Z :=
  match l with
  | [] => None
  | x :: r => Some (fold_left Z.min r x)
  end.

(** [l INNER JOIN r ON on]: the pairs of the product that satisfy [on]. *)
Definition inner_join {A B : Type} (on : A -> B -> bool) (l : list A) (r : list B) : list (A * B) :=
  filter (fun p => on (fst p) (snd p)) (list_prod l r).

(** [LATERAL VIEW explode(col)]: one row per element of the array column;
    a row whose array is empty produces nothing. *)
Definition lateral_view_explode {A B : Type} (col : A -> list B) (rows : list A) : list (A * B) :=
  flat_map (fun r => map (fun x => (r, x)) (col r)) rows.

Section GroupBy.
Variables R K : Type.
Variable K_dec : forall x y : K, {x = y} + {x <> y}.
Variable key : R -> K.

Definition has_key (k : K) (r : R) : bool :=
  if K_dec (key r) k then true else false.

(** The groups of [GROUP BY key]: one per distinct key value. *)
Definition group_keys (rows : list R) : list K := nodup K_dec (map key rows).

Definition group (rows : list R) (k : K) : list R := filter (has_key k) rows.

(** [SELECT key, agg(...) ... GROUP BY key]. *)
Definition group_by (V : Type) (agg : list R -> V) (rows : list R) : list (K * V) :=
  map (fun k => (k, agg (group rows k))) (group_keys rows).

(** Reading a count off a grouped result: the count in the row of the
    group, and 0 when the result has no row for it. *)
Definition count_of (k : K) (result : list (K * nat)) : nat :=
  match find (fun row => if K_dec (fst row) k then true else false) result with
  | Some row => snd row
  | None => 0
  end.
End GroupBy.

(** [COUNT(1)] and [COUNT(DISTINCT col)] *)
Definition count_rows {R : Type} (g : list R) : nat := length g.

Definition count_distinct {R C : Type} (C_dec : forall x y : C, {x = y} + {x <> y})
    (col : R -> C) (g : list R) : nat :=
  length (nodup C_dec (map col g)).

(** [q1 UNION q2] (not [UNION ALL]): duplicates are removed. *)
Definition union {R : Type} (R_dec : forall x y : R, {x = y} + {x <> y})
    (q1 q2 : list R) : list R :=
  nodup R_dec (q1 ++ q2).

End Sql.

(** ** Rows of the Enriched Events datasets *)

Module Decision.
Record t : Type := mk {
  visitor_id : string;
  session_id : string;
  experiment_id : string;
  variation_id : string;
  timestamp : Z;
  is_holdback : bool;
  process_timestamp : Z
}.
End Decision.

(** An element of the [experiments] array column of an event. *)
Module Attribution.
Record t : Type := mk {
  experiment_id : string;
  variation_id : string
}.
End Attribution.

Module Event.
Record t : Type := mk {
  visitor_id : string;
  event_name : string;
  timestamp : Z;
  experiments : list Attribution.t
}.
End Event.

Definition pair_dec : forall x y : string * string, {x = y} + {x <> y}.
Proof. decide equality; apply string_dec. Defined.

Definition triple_dec : forall x y : string * string * string, {x = y} + {x <> y}.
Proof. decide equality; [apply string_dec | apply pair_dec]. Defined.

Definition quad_dec : forall x y : string * string * string * string, {x = y} + {x <> y}.
Proof. decide equality; [apply string_dec | apply triple_dec]. Defined.

(** ** The window filter

    Every query of both notebooks restricts a table to the analysis window
    with [WHERE <timestamp column> BETWEEN start AND end]. *)
Definition window_filter {R : Type} (timestamp_field : R -> Z)
    (window_start window_end : Z) (rows : list R) : list R :=
  filter (fun r => Sql.between (timestamp_field r) window_start window_end) rows.

(** ** Notebook "Computing Experiment Datasets #1: Experiment Subjects" *)

Module ExperimentSubjects.

(** The [subject_id] parameter names the decision column that identifies a
    subject: "visitor_id" by default, "session_id" for session-level
    metrics. *)
Inductive SubjectIdColumn : Type :=
| visitor_id_column
| session_id_column.

Definition subject_of (subject_id : SubjectIdColumn) (d : Decision.t) : string :=
  match subject_id with
  | visitor_id_column => Decision.visitor_id d
  | session_id_column => Decision.session_id d
  end.

(** [CREATE OR REPLACE TEMPORARY VIEW decisions AS
     SELECT * FROM loaded_decisions
     WHERE timestamp BETWEEN '{decisions_start}' AND '{decisions_end}'] *)
Definition decisions (decisions_start decisions_end : Z)
    (loaded_decisions : list Decision.t) : list Decision.t :=
  window_filter Decision.timestamp decisions_start decisions_end loaded_decisions.

(** A row of the [experiment_subjects] view. *)
Module Subject.
Record t : Type := mk {
  subject : string;
  experiment_id : string;
  variation_id : string;
  timestamp : Z
}.
End Subject.

Definition same_partition (subject_id : SubjectIdColumn) (d d' : Decision.t) : bool :=
  (Decision.experiment_id d =? Decision.experiment_id d')%string
  && (subject_of subject_id d =? subject_of subject_id d')%string.

(** [SELECT *, RANK() OVER (PARTITION BY experiment_id, {subject_id}
                            ORDER BY timestamp ASC) AS rnk FROM decisions] *)
Definition ranked (subject_id : SubjectIdColumn) (decisions : list Decision.t)
    : list (Decision.t * nat) :=
  map (fun d => (d, Sql.rank (same_partition subject_id) Decision.timestamp decisions d))
      decisions.

Definition select_subject (subject_id : SubjectIdColumn) (d : Decision.t) : Subject.t :=
  Subject.mk (subject_of subject_id d) (Decision.experiment_id d)
             (Decision.variation_id d) (Decision.timestamp d).

(** [CREATE OR REPLACE TEMPORARY VIEW experiment_subjects AS
     SELECT {subject_id}, experiment_id, variation_id, timestamp
     FROM (... ranked ...) WHERE rnk = 1 ORDER BY timestamp ASC] *)
Definition experiment_subjects (subject_id : SubjectIdColumn)
    (decisions : list Decision.t) : list Subject.t :=
  Sql.order_by (fun a b => (Subject.timestamp a <=? Subject.timestamp b)%Z)
    (map (fun p => select_subject subject_id (fst p))
       (filter (fun p => snd p =? 1) (ranked subject_id decisions))).

(** [SELECT experiment_id, variation_id, COUNT(1) AS subject_count
     FROM experiment_subjects GROUP BY experiment_id, variation_id
     ORDER BY experiment_id, variation_id] *)
Definition subject_count (experiment_subjects : list Subject.t)
    : list (string * string * nat) :=
  Sql.order_by
    (Sql.leb_of (Sql.lexicographic
       [Sql.asc (fun row : string * string * nat => fst (fst row));
        Sql.asc (fun row : string * string * nat => snd (fst row))]))
    (Sql.group_by pair_dec
       (fun s => (Subject.experiment_id s, Subject.variation_id s))
       Sql.count_rows experiment_subjects).

End ExperimentSubjects.

(** ** Notebook "Working with Enriched Events data using Spark SQL" *)

Module EnrichedEvents.

(** The temporary views the queries read: [read_data(decisions_dir,
    "decisions")] and [read_data(events_dir, "events")]. *)
Module Views.
Record t : Type := mk {
  decisions : list Decision.t;
  events : list Event.t
}.
End Views.

(** [FROM events LATERAL VIEW explode(experiments) t AS exp
     WHERE timestamp BETWEEN '{start}' AND '{end}'] *)
Definition exploded_events (start end_ : Z) (views : Views.t)
    : list (Event.t * Attribution.t) :=
  filter (fun p => Sql.between (Event.timestamp (fst p)) start end_)
    (Sql.lateral_view_explode Event.experiments (Views.events views)).

(** [FROM decisions
     WHERE timestamp BETWEEN '{start}' AND '{end}' AND is_holdback = false] *)
Definition exposures (start end_ : Z) (views : Views.t) : list Decision.t :=
  filter (fun d => Sql.between (Decision.timestamp d) start end_
                   && Bool.eqb (Decision.is_holdback d) false)
    (Views.decisions views).

(** The sort keys [experiment_id ASC, variation_id ASC] of a grouped row. *)
Definition by_experiment_variation {V : Type}
    : list (string * string * V -> string * string * V -> comparison) :=
  [Sql.asc (fun row => fst (fst row)); Sql.asc (fun row => snd (fst row))].

(** Count the unique visitors from all events (Optimizely Web): the
    subquery [SELECT exp.experiment_id, exp.variation_id, visitor_id FROM
    events ... UNION SELECT experiment_id, variation_id, visitor_id FROM
    decisions ...] *)
Definition web_visitors (start end_ : Z) (views : Views.t)
    : list (string * string * string) :=
  Sql.union triple_dec
    (map (fun p => (Attribution.experiment_id (snd p),
                    Attribution.variation_id (snd p),
                    Event.visitor_id (fst p)))
       (exploded_events start end_ views))
    (map (fun d => (Decision.experiment_id d, Decision.variation_id d,
                    Decision.visitor_id d))
       (exposures start end_ views)).

(** [SELECT experiment_id, variation_id, COUNT (distinct visitor_id)
     FROM (...) GROUP BY experiment_id, variation_id
     ORDER BY experiment_id ASC, variation_id ASC] *)
Definition unique_visitors_web (start end_ : Z) (views : Views.t)
    : list (string * string * nat) :=
  Sql.order_by (Sql.leb_of (Sql.lexicographic by_experiment_variation))
    (Sql.group_by pair_dec (fun row : string * string * string => fst row)
       (Sql.count_distinct string_dec (fun row : string * string * string => snd row))
       (web_visitors start end_ views)).

(** Count the unique visitors from decisions (Optimizely Full Stack):
    [SELECT experiment_id, variation_id, COUNT(distinct visitor_id)
     FROM decisions WHERE ... GROUP BY experiment_id, variation_id] *)
Definition unique_visitors_full_stack (start end_ : Z) (views : Views.t)
    : list (string * string * nat) :=
  Sql.group_by pair_dec
    (fun d => (Decision.experiment_id d, Decision.variation_id d))
    (Sql.count_distinct string_dec Decision.visitor_id)
    (exposures start end_ views).

(** Count the unique conversions of a particular event attributed to an
    experiment (Optimizely Web):
    [SELECT exp.experiment_id, exp.variation_id, event_name, COUNT(1)
     FROM events LATERAL VIEW explode(experiments) t AS exp WHERE ...
     GROUP BY experiment_id, variation_id, event_name
     ORDER BY experiment_id DESC, variation_id DESC, event_name ASC] *)
Definition conversion_count_web (start end_ : Z) (views : Views.t)
    : list (string * string * string * nat) :=
  Sql.order_by
    (Sql.leb_of (Sql.lexicographic
       [Sql.desc (fun row : string * string * string * nat => fst (fst (fst row)));
        Sql.desc (fun row : string * string * string * nat => snd (fst (fst row)));
        Sql.asc (fun row : string * string * string * nat => snd (fst row))]))
    (Sql.group_by triple_dec
       (fun p : Event.t * Attribution.t =>
          (Attribution.experiment_id (snd p), Attribution.variation_id (snd p),
           Event.event_name (fst p)))
       Sql.count_rows
       (exploded_events start end_ views)).

(** The subquery [d] of the Full Stack conversion count:
    [SELECT experiment_id, variation_id, visitor_id,
            MIN(timestamp) as decision_timestamp
     FROM decisions WHERE ... GROUP BY experiment_id, variation_id, visitor_id] *)
Definition decision_timestamps (start end_ : Z) (views : Views.t)
    : list (string * string * string * option Z) :=
  Sql.group_by triple_dec
    (fun d => (Decision.experiment_id d, Decision.variation_id d,
               Decision.visitor_id d))
    (fun g => Sql.minimum (map Decision.timestamp g))
    (exposures start end_ views).

(** [e.timestamp >= d.decision_timestamp]; a comparison with NULL does not
    hold. *)
Definition not_before (t : Z) (decision_timestamp : option Z) : bool :=
  match decision_timestamp with
  | Some m => (m <=? t)%Z
  | None => false
  end.

(** The rows the joined subquery selects from:
    [FROM events e INNER JOIN (...) d ON e.visitor_id = d.visitor_id
     WHERE e.timestamp BETWEEN '{start}' AND '{end}'
       AND e.timestamp >= d.decision_timestamp] *)
Definition joined_events (start end_ : Z) (views : Views.t)
    : list (Event.t * (string * string * string * option Z)) :=
  filter (fun p : Event.t * (string * string * string * option Z) =>
            Sql.between (Event.timestamp (fst p)) start end_
            && not_before (Event.timestamp (fst p)) (snd (snd p)))
    (Sql.inner_join
       (fun (e : Event.t) (d : string * string * string * option Z) =>
          (Event.visitor_id e =? snd (fst d))%string)
       (Views.events views)
       (decision_timestamps start end_ views)).

(** [SELECT d.experiment_id, d.variation_id, e.event_name, e.visitor_id] *)
Definition select_attributed (p : Event.t * (string * string * string * option Z))
    : string * string * string * string :=
  (fst (fst (fst (snd p))), snd (fst (fst (snd p))),
   Event.event_name (fst p), Event.visitor_id (fst p)).

(** The joined subquery of the Full Stack conversion count. *)
Definition attributed_events (start end_ : Z) (views : Views.t)
    : list (string * string * string * string) :=
  map select_attributed (joined_events start end_ views).

(** [SELECT experiment_id, variation_id, event_name, COUNT (1) FROM (...)
     GROUP BY experiment_id, variation_id, event_name
     ORDER BY experiment_id DESC, variation_id ASC] *)
Definition conversion_count_full_stack (start end_ : Z) (views : Views.t)
    : list (string * string * string * nat) :=
  Sql.order_by
    (Sql.leb_of (Sql.lexicographic
       [Sql.desc (fun row : string * string * string * nat => fst (fst (fst row)));
        Sql.asc (fun row : string * string * string * nat => snd (fst (fst row)))]))
    (Sql.group_by triple_dec
       (fun row : string * string * string * string => fst row)
       Sql.count_rows
       (attributed_events start end_ views)).

End EnrichedEvents.

(** ** Data locations, previews and the subjects sink *)

Module Storage.

(** [os.environ.get(key, default)] on an environment. *)
Definition environ_get (environ : string -> option string) (key default : string) : string :=
  match environ key with
  | Some value => value
  | None => default
  end.

(** [b.startswith("/")] and [path.endswith("/")]. *)
Definition startswith_sep (b : string) : bool :=
  match b with
  | String c _ => Ascii.eqb c "/"%char
  | EmptyString => false
  end.

Fixpoint endswith_sep (path : string) : bool :=
  match path with
  | EmptyString => false
  | String c EmptyString => Ascii.eqb c "/"%char
  | String _ rest => endswith_sep rest
  end.

(** [os.path.join(a, b)] of the POSIX path module: an absolute [b] replaces
    [a]; otherwise [b] is appended, after a "/" unless [a] is empty or
    already ends with one. *)
Definition path_join (a b : string) : string :=
  if startswith_sep b then b
  else if (a =? "")%string || endswith_sep a then (a ++ b)%string
  else (a ++ "/" ++ b)%string.

(** What [os.path.join] puts between a directory [a] and a relative name:
    nothing when [a] is empty or ends with "/", a "/" otherwise. *)
Definition separator_after (a : string) : string :=
  if (a =? "")%string || endswith_sep a then EmptyString else "/"%string.

(** [base_data_dir = os.environ.get("OPTIMIZELY_DATA_DIR", "./example_data")] *)
Definition base_data_dir (environ : string -> option string) : string :=
  environ_get environ "OPTIMIZELY_DATA_DIR" "./example_data".

(** [decisions_dir = os.path.join(base_data_dir, "type=decisions")] *)
Definition decisions_dir (environ : string -> option string) : string :=
  path_join (base_data_dir environ) "type=decisions".

(** [events_dir = os.path.join(base_data_dir, "type=events")] *)
Definition events_dir (environ : string -> option string) : string :=
  path_join (base_data_dir environ) "type=events".

(** [subjects_output_dir = os.path.join(base_data_dir, "type=subjects")] *)
Definition subjects_output_dir (environ : string -> option string) : string :=
  path_join (base_data_dir environ) "type=subjects".

(** [LIMIT n] *)
Definition limit {R : Type} (n : nat) (rows : list R) : list R := firstn n rows.

(** [SELECT * FROM experiment_subjects LIMIT 5] *)
Definition experiment_subjects_preview (experiment_subjects : list ExperimentSubjects.Subject.t)
    : list ExperimentSubjects.Subject.t :=
  limit 5 experiment_subjects.

(** A row of a partition file: the partition column is in the directory
    name, not in the file. *)
Module StoredSubject.
Record t : Type := mk {
  subject : string;
  variation_id : string;
  timestamp : Z
}.
End StoredSubject.



End Storage.

(** ** Vocabulary of the stated properties *)

(** [Restriction P rows rows']: [rows'] is the sub-collection of [rows] made
    of exactly the rows that satisfy [P], in their order and with their
    multiplicity. *)
Inductive Restriction {R : Type} (P : R -> Prop) : list R -> list R -> Prop :=
| restriction_nil : Restriction P [] []
| restriction_keep (r : R) (rows rows' : list R) :
    P r -> Restriction P rows rows' -> Restriction P (r :: rows) (r :: rows')
| restriction_drop (r : R) (rows rows' : list R) :
    ~ P r -> Restriction P rows rows' -> Restriction P (r :: rows) rows'.

Module SubjectsSpec.
Import ExperimentSubjects.

(** The decision belongs to the pair (experiment [e], subject [s]). *)
Definition in_pair (subject_id : SubjectIdColumn) (e s : string) (d : Decision.t) : bool :=
  (Decision.experiment_id d =? e)%string && (subject_of subject_id d =? s)%string.

(** The subject row belongs to the pair (experiment [e], subject [s]). *)
Definition row_in_pair (e s : string) (row : Subject.t) : bool :=
  (Subject.experiment_id row =? e)%string && (Subject.subject row =? s)%string.

(** [m] is the minimum timestamp over the decisions of the pair: one of
    them has it, and none is earlier. *)
Definition minimum_timestamp (subject_id : SubjectIdColumn) (e s : string)
    (ds : list Decision.t) (m : Z) : Prop :=
  (exists d, In d ds /\ in_pair subject_id e s d = true /\ Decision.timestamp d = m)
  /\ (forall d, In d ds -> in_pair subject_id e s d = true -> (m <= Decision.timestamp d)%Z).

(** The rows kept by [WHERE rnk = 1], before the projection and the sort. *)
Definition first_decisions (subject_id : SubjectIdColumn) (ds : list Decision.t)
    : list Decision.t :=
  filter (fun d => Sql.rank (same_partition subject_id) Decision.timestamp ds d =? 1) ds.

(** The same decision with its [is_holdback] flag flipped. *)
Definition flip_holdback (d : Decision.t) : Decision.t :=
  Decision.mk (Decision.visitor_id d) (Decision.session_id d)
    (Decision.experiment_id d) (Decision.variation_id d)
    (Decision.timestamp d) (negb (Decision.is_holdback d))
    (Decision.process_timestamp d).

End SubjectsSpec.

Module AttributionSpec.

(** The decision is an in-window non-holdback decision for the pair
    (experiment [e], variation [v]). *)
Definition exposure_of (start end_ : Z) (e v : string) (d : Decision.t) : bool :=
  Sql.between (Decision.timestamp d) start end_
  && negb (Decision.is_holdback d)
  && (Decision.experiment_id d =? e)%string
  && (Decision.variation_id d =? v)%string.

(** ... and it is a decision of subject [s]. *)
Definition exposure_of_subject (start end_ : Z) (e v s : string) (d : Decision.t) : bool :=
  exposure_of start end_ e v d && (Decision.visitor_id d =? s)%string.

(** The element of an [experiments] list is the pair ([e], [v]). *)
Definition is_attribution (e v : string) (a : Attribution.t) : bool :=
  (Attribution.experiment_id a =? e)%string && (Attribution.variation_id a =? v)%string.

(** The event's [experiments] list contains ([e], [v]). *)
Definition lists (e v : string) (ev : Event.t) : bool :=
  existsb (is_attribution e v) (Event.experiments ev).

(** How many times the event's [experiments] list contains ([e], [v]). *)
Definition listed_times (e v : string) (ev : Event.t) : nat :=
  length (filter (is_attribution e v) (Event.experiments ev)).

(** The event is an in-window occurrence of the event named [n]. *)
Definition occurrence_of (start end_ : Z) (n : string) (ev : Event.t) : bool :=
  (Event.event_name ev =? n)%string && Sql.between (Event.timestamp ev) start end_.

(** The event without its [experiments] enrichment. *)
Definition strip_experiments (ev : Event.t) : Event.t :=
  Event.mk (Event.visitor_id ev) (Event.event_name ev) (Event.timestamp ev) [].

(** The Full Stack condition on an event for ([e], [v]): its subject has an
    in-window non-holdback decision for the pair that is not later than
    the event. *)
Definition exposed_before (start end_ : Z) (decisions : list Decision.t)
    (e v : string) (ev : Event.t) : bool :=
  existsb (fun d => exposure_of_subject start end_ e v (Event.visitor_id ev) d
                    && (Decision.timestamp d <=? Event.timestamp ev)%Z)
    decisions.

(** The input without the events of subject [s]. *)
Definition without_subject (s : string) (views : EnrichedEvents.Views.t)
    : EnrichedEvents.Views.t :=
  EnrichedEvents.Views.mk (EnrichedEvents.Views.decisions views)
    (filter (fun ev => negb (Event.visitor_id ev =? s)%string)
       (EnrichedEvents.Views.events views)).

(** The input with the enrichment of every event removed. *)
Definition without_enrichment (views : EnrichedEvents.Views.t) : EnrichedEvents.Views.t :=
  EnrichedEvents.Views.mk (EnrichedEvents.Views.decisions views)
    (map strip_experiments (EnrichedEvents.Views.events views)).

End AttributionSpec.

(** The concrete scenario: decisions (s1,e1,vA,t=10), (s1,e1,vB,t=20),
    (s2,e1,vA,t=15), none of them a holdback. *)
Module Scenario.

Definition decision (subject experiment variation : string) (t : Z) : Decision.t :=
  Decision.mk subject subject experiment variation t false t.

Definition decisions : list Decision.t :=
  [decision "s1" "e1" "vA" 10; decision "s1" "e1" "vB" 20; decision "s2" "e1" "vA" 15].

(** The event (s1, "purchase", t, experiments=[(e1,vA)]). *)
Definition purchase (t : Z) : Event.t :=
  Event.mk "s1" "purchase" t [Attribution.mk "e1" "vA"].

(** Two decisions of one subject for one experiment at the same instant. *)
Definition tied_decisions : list Decision.t :=
  [decision "s1" "e1" "vA" 10; decision "s1" "e1" "vB" 10].

(** An event whose [experiments] list names (e1,vA) twice. *)
Definition repeated_attribution : Event.t :=
  Event.mk "s1" "purchase" 12 [Attribution.mk "e1" "vA"; Attribution.mk "e1" "vA"].

(** One decision, flagged as a holdback. *)
Definition holdback_decisions : list Decision.t :=
  [Decision.mk "s1" "s1" "e1" "vA" 10 true 10].

End Scenario.

(** ** Facts about the SQL operators *)

Module SqlFacts.
Import Sql.

Lemma between_spec (t lo hi : Z) :
  between t lo hi = true <-> (lo <= t <= hi)%Z.
Proof. unfold between. rewrite andb_true_iff, !Z.leb_le. tauto. Qed.

Lemma insert_by_perm {A : Type} (leb : A -> A -> bool) (x : A) (l : list A) :
  Permutation (insert_by leb x l) (x :: l).
Proof.
  induction l as [|y r IH]; simpl.
  - apply Permutation_refl.
  - destruct (leb x y).
    + apply Permutation_refl.
    + eapply perm_trans; [apply perm_skip, IH | apply perm_swap].
Qed.

Lemma order_by_perm {A : Type} (leb : A -> A -> bool) (l : list A) :
  Permutation (order_by leb l) l.
Proof.
  induction l as [|x r IH]; simpl.
  - constructor.
  - eapply perm_trans; [apply insert_by_perm | now apply perm_skip].
Qed.

Lemma filter_perm {A : Type} (p : A -> bool) (l l' : list A) :
  Permutation l l' -> Permutation (filter p l) (filter p l').
Proof.
  induction 1 as [|x l l' _ IH|x y l|l l' l'' _ IH1 _ IH2]; simpl.
  - constructor.
  - destruct (p x); [now apply perm_skip | assumption].
  - destruct (p x), (p y); try apply Permutation_refl. apply perm_swap.
  - eapply perm_trans; eassumption.
Qed.

Lemma filter_none_length {A : Type} (p : A -> bool) (l : list A) :
  length (filter p l) = 0 <-> (forall x, In x l -> p x = false).
Proof.
  induction l as [|y r IH]; simpl.
  - split; [contradiction | reflexivity].
  - destruct (p y) eqn:E; simpl.
    + split; [discriminate |].
      intros H. rewrite (H y) in E by now left. discriminate.
    + rewrite IH. split.
      * intros H x [<- | Hx]; auto.
      * intros H x Hx. apply H. now right.
Qed.

(** A row has rank 1 exactly when no row of its partition is strictly
    earlier. *)
Lemma rank_first {A : Type} (same : A -> A -> bool) (ts : A -> Z)
    (rows : list A) (r : A) :
  (rank same ts rows r =? 1) = true <->
  (forall r', In r' rows -> same r r' = true -> (ts r <= ts r')%Z).
Proof.
  unfold rank. rewrite Nat.eqb_eq.
  split.
  - intros H r' Hin Hsame.
    assert (H0 : length (filter (fun r' => same r r' && (ts r' <? ts r)%Z) rows) = 0)
      by lia.
    rewrite filter_none_length in H0. specialize (H0 r' Hin).
    rewrite Hsame in H0. simpl in H0. apply Z.ltb_ge in H0. exact H0.
  - intros H. f_equal. apply filter_none_length. intros r' Hin.
    destruct (same r r') eqn:E; simpl; [| reflexivity].
    apply Z.ltb_ge. now apply H.
Qed.

Lemma fold_min_le (l : list Z) (x : Z) :
  (fold_left Z.min l x <= x)%Z /\ (forall y, In y l -> (fold_left Z.min l x <= y)%Z).
Proof.
  revert x. induction l as [|a r IH]; intros x; simpl.
  - split; [lia | contradiction].
  - destruct (IH (Z.min x a)) as [H1 H2]. split; [lia |].
    intros y [<- | Hy]; [lia | auto].
Qed.

Lemma fold_min_in (l : list Z) (x : Z) :
  fold_left Z.min l x = x \/ In (fold_left Z.min l x) l.
Proof.
  revert x. induction l as [|a r IH]; intros x; simpl.
  - now left.
  - destruct (IH (Z.min x a)) as [H | H]; [| now right; right].
    rewrite H. destruct (Z.min_spec x a) as [[_ ->] | [_ ->]]; auto.
Qed.

(** [MIN] returns a value of the column that bounds all of them, and is
    NULL only on no rows. *)
Lemma minimum_spec (l : list Z) (m : Z) :
  minimum l = Some m <-> In m l /\ (forall y, In y l -> (m <= y)%Z).
Proof.
  destruct l as [|x r]; simpl.
  - split; [discriminate | tauto].
  - destruct (fold_min_le r x) as [H1 H2].
    assert (Hf : In (fold_left Z.min r x) (x :: r))
      by (destruct (fold_min_in r x) as [-> | H]; [now left | now right]).
    assert (Hb : forall y, In y (x :: r) -> (fold_left Z.min r x <= y)%Z)
      by (intros y [<- | Hy]; auto).
    split.
    + intros [= <-]. split; assumption.
    + intros [Hin Hm]. f_equal.
      specialize (Hb m Hin). specialize (Hm _ Hf). lia.
Qed.

Lemma minimum_none (l : list Z) : minimum l = None <-> l = [].
Proof. destruct l; simpl; split; congruence. Qed.

Section GroupByFacts.
Variables R K : Type.
Variable K_dec : forall x y : K, {x = y} + {x <> y}.
Variable key : R -> K.

Lemma has_key_true (k : K) (r : R) : has_key K_dec key k r = true <-> key r = k.
Proof. unfold has_key. destruct (K_dec (key r) k); split; congruence. Qed.

Lemma in_group (rows : list R) (k : K) (r : R) :
  In r (group K_dec key rows k) <-> In r rows /\ key r = k.
Proof. unfold group. rewrite filter_In, has_key_true. tauto. Qed.

Lemma group_absent (rows : list R) (k : K) :
  ~ In k (map key rows) -> group K_dec key rows k = [].
Proof.
  intros H. destruct (group K_dec key rows k) as [|r g] eqn:E; [reflexivity |].
  exfalso. apply H. assert (Hr : In r (group K_dec key rows k)) by (rewrite E; now left).
  apply in_group in Hr as [Hr <-]. now apply in_map.
Qed.

Lemma group_by_keys (V : Type) (agg : list R -> V) (rows : list R) :
  map fst (group_by K_dec key agg rows) = group_keys K_dec key rows.
Proof. unfold group_by. rewrite map_map. simpl. apply map_id. Qed.

Lemma count_of_in (k : K) (n : nat) (result : list (K * nat)) :
  NoDup (map fst result) -> In (k, n) result -> count_of K_dec k result = n.
Proof.
  unfold count_of. induction result as [|[k' n'] r IH]; simpl; [contradiction |].
  intros Hnd Hin. inversion Hnd as [|? ? Hk' Hnd']; subst.
  destruct (K_dec k' k) as [-> | Hne].
  - destruct Hin as [[= ->] | Hin]; [reflexivity |].
    exfalso. apply Hk'. change k with (fst (k, n)). now apply in_map.
  - destruct Hin as [[= -> _] | Hin]; [congruence | auto].
Qed.

Lemma count_of_absent (k : K) (result : list (K * nat)) :
  ~ In k (map fst result) -> count_of K_dec k result = 0.
Proof.
  unfold count_of. induction result as [|[k' n'] r IH]; simpl; [reflexivity |].
  intros H. destruct (K_dec k' k) as [-> | Hne]; [exfalso; auto | auto].
Qed.

(** The count read off a grouped, then sorted, result is the aggregate of
    the group, for any aggregate that is 0 on no rows. *)
Lemma count_of_group_by (agg : list R -> nat) (leb : K * nat -> K * nat -> bool)
    (rows : list R) (k : K) :
  agg [] = 0 ->
  count_of K_dec k (order_by leb (group_by K_dec key agg rows))
  = agg (group K_dec key rows k).
Proof.
  intros Hnil.
  pose proof (order_by_perm leb (group_by K_dec key agg rows)) as Hp.
  assert (Hnd : NoDup (map fst (order_by leb (group_by K_dec key agg rows)))).
  { eapply Permutation_NoDup; [apply Permutation_sym, Permutation_map, Hp |].
    rewrite group_by_keys. apply NoDup_nodup. }
  destruct (in_dec K_dec k (map key rows)) as [Hin | Hout].
  - apply count_of_in; [exact Hnd |].
    eapply Permutation_in; [apply Permutation_sym, Hp |].
    unfold group_by.
    apply (in_map (fun k => (k, agg (group K_dec key rows k)))).
    unfold group_keys. now apply nodup_In.
  - rewrite (group_absent _ _ Hout), Hnil.
    apply count_of_absent. intros Hk. apply Hout.
    eapply Permutation_in in Hk; [| apply Permutation_map, Hp].
    rewrite group_by_keys in Hk. unfold group_keys in Hk.
    now apply nodup_In in Hk.
Qed.

Lemma count_of_group_by_unordered (agg : list R -> nat) (rows : list R) (k : K) :
  agg [] = 0 ->
  count_of K_dec k (group_by K_dec key agg rows) = agg (group K_dec key rows k).
Proof.
  intros Hnil.
  assert (Hnd : NoDup (map fst (group_by K_dec key agg rows)))
    by (rewrite group_by_keys; apply NoDup_nodup).
  destruct (in_dec K_dec k (map key rows)) as [Hin | Hout].
  - apply count_of_in; [exact Hnd |].
    unfold group_by.
    apply (in_map (fun k => (k, agg (group K_dec key rows k)))).
    unfold group_keys. now apply nodup_In.
  - rewrite (group_absent _ _ Hout), Hnil.
    apply count_of_absent. rewrite group_by_keys. unfold group_keys.
    now rewrite nodup_In.
Qed.
End GroupByFacts.

Lemma inner_join_flat_map {A B : Type} (on : A -> B -> bool) (l : list A) (r : list B) :
  inner_join on l r = flat_map (fun a => map (fun b => (a, b)) (filter (on a) r)) l.
Proof.
  unfold inner_join. induction l as [|a l IH]; simpl; [reflexivity |].
  rewrite filter_app, IH. f_equal.
  clear. induction r as [|b r IH]; simpl; [reflexivity |].
  destruct (on a b); simpl; now rewrite IH.
Qed.

Lemma filter_flat_map {A B : Type} (p : B -> bool) (f : A -> list B) (l : list A) :
  filter p (flat_map f l) = flat_map (fun a => filter p (f a)) l.
Proof.
  induction l as [|a l IH]; simpl; [reflexivity |].
  now rewrite filter_app, IH.
Qed.

Lemma flat_map_filter {A B : Type} (p : A -> bool) (f : A -> list B) (l : list A) :
  flat_map f (filter p l) = flat_map (fun a => if p a then f a else []) l.
Proof.
  induction l as [|a l IH]; simpl; [reflexivity |].
  destruct (p a); simpl; now rewrite IH.
Qed.

End SqlFacts.

(** ** The window filter *)

Module WindowFilterProofs.
Import Sql SqlFacts.

Lemma window_filter_In {R : Type} (f : R -> Z) (s e : Z) (rows : list R) (r : R) :
  In r (window_filter f s e rows) <-> In r rows /\ (s <= f r <= e)%Z.
Proof. unfold window_filter. now rewrite filter_In, between_spec. Qed.

Lemma filter_restriction {R : Type} (p : R -> bool) (rows : list R) :
  Restriction (fun r => p r = true) rows (filter p rows).
Proof.
  induction rows as [|r rows IH]; simpl.
  - constructor.
  - destruct (p r) eqn:E.
    + now apply restriction_keep.
    + apply restriction_drop; [congruence | assumption].
Qed.

Lemma restriction_unique {R : Type} (P : R -> Prop) (rows out out' : list R) :
  Restriction P rows out -> Restriction P rows out' -> out = out'.
Proof.
  intros H. revert out'.
  induction H as [|r rows rows' Hr _ IH|r rows rows' Hr _ IH]; intros out' H';
    inversion H'; subst; try contradiction; try reflexivity.
  - f_equal. now apply IH.
  - now apply IH.
Qed.

Lemma restriction_iff {R : Type} (P Q : R -> Prop) (rows out : list R) :
  (forall r, P r <-> Q r) -> Restriction P rows out -> Restriction Q rows out.
Proof.
  intros HPQ. induction 1.
  - constructor.
  - apply restriction_keep; [now apply HPQ | assumption].
  - apply restriction_drop; [now rewrite <- HPQ | assumption].
Qed.

(** C3. For every table, every timestamp column of it and all bounds (in
    particular whenever start <= end), the window filter returns exactly the
    sub-collection of the input rows whose timestamp [t] satisfies
    [start <= t <= end], both bounds inclusive: the result is the
    restriction of the input to these rows (and the only one), a row is in
    the result if and only if it is in the input and lies in the closed
    interval, and filtering the result again with the same column and
    bounds leaves it unchanged. *)
Theorem window_filter_exact_and_idempotent :
  forall (R : Type) (timestamp_field : R -> Z) (s e : Z) (rows : list R),
    Restriction (fun r => (s <= timestamp_field r <= e)%Z) rows
      (window_filter timestamp_field s e rows)
    /\ (forall rows', Restriction (fun r => (s <= timestamp_field r <= e)%Z) rows rows' ->
          rows' = window_filter timestamp_field s e rows)
    /\ (forall r, In r (window_filter timestamp_field s e rows) <->
                  In r rows /\ (s <= timestamp_field r <= e)%Z)
    /\ incl (window_filter timestamp_field s e rows) rows
    /\ window_filter timestamp_field s e (window_filter timestamp_field s e rows)
       = window_filter timestamp_field s e rows.
Proof.
  intros R f s e rows.
  assert (HR : Restriction (fun r => (s <= f r <= e)%Z) rows (window_filter f s e rows)).
  { eapply restriction_iff; [| apply filter_restriction].
    intros r. apply between_spec. }
  split; [exact HR |].
  split; [intros rows' H'; exact (restriction_unique H' HR) |].
  split; [intros r; apply window_filter_In |].
  split.
  - intros r Hr. now apply window_filter_In in Hr.
  - unfold window_filter. apply forallb_filter_id, forallb_filter.
Qed.

(** The bounds are inclusive and an empty interval keeps nothing. *)
Lemma window_filter_witness :
  window_filter (fun t : Z => t) 10 20 [5; 10; 15; 20; 25]%Z = [10; 15; 20]%Z
  /\ window_filter (fun t : Z => t) 10 20
       (window_filter (fun t : Z => t) 10 20 [5; 10; 15; 20; 25]%Z) = [10; 15; 20]%Z.
Proof.
  destruct (window_filter_exact_and_idempotent (fun t : Z => t) 10 20 [5; 10; 15; 20; 25]%Z)
    as (_ & _ & _ & _ & Hidem).
  split; [reflexivity | rewrite Hidem; reflexivity].
Defined.

End WindowFilterProofs.

(** ** The subject attribution engine ([experiment_subjects]) *)

Module SubjectsProofs.
Import Sql SqlFacts ExperimentSubjects SubjectsSpec.

Lemma experiment_subjects_unfold (subject_id : SubjectIdColumn) (ds : list Decision.t) :
  experiment_subjects subject_id ds
  = order_by (fun a b => (Subject.timestamp a <=? Subject.timestamp b)%Z)
      (map (select_subject subject_id) (first_decisions subject_id ds)).
Proof.
  unfold experiment_subjects, ranked, first_decisions. f_equal.
  rewrite filter_map_swap, map_map. reflexivity.
Qed.

Lemma experiment_subjects_perm (subject_id : SubjectIdColumn) (ds : list Decision.t) :
  Permutation (experiment_subjects subject_id ds)
    (map (select_subject subject_id) (first_decisions subject_id ds)).
Proof. rewrite experiment_subjects_unfold. apply order_by_perm. Qed.

Lemma in_pair_spec (subject_id : SubjectIdColumn) (e s : string) (d : Decision.t) :
  in_pair subject_id e s d = true <->
  Decision.experiment_id d = e /\ subject_of subject_id d = s.
Proof. unfold in_pair. now rewrite andb_true_iff, !String.eqb_eq. Qed.

Lemma same_partition_spec (subject_id : SubjectIdColumn) (d d' : Decision.t) :
  same_partition subject_id d d' = true <->
  Decision.experiment_id d = Decision.experiment_id d'
  /\ subject_of subject_id d = subject_of subject_id d'.
Proof. unfold same_partition. now rewrite andb_true_iff, !String.eqb_eq. Qed.

Lemma filter_filter {A : Type} (p q : A -> bool) (l : list A) :
  filter p (filter q l) = filter (fun x => q x && p x) l.
Proof.
  induction l as [|x l IH]; simpl; [reflexivity |].
  destruct (q x); simpl; [destruct (p x) |]; now rewrite IH.
Qed.

(** Among the decisions of a pair, the rank-1 ones are those that carry the
    minimum timestamp of the pair. *)
Lemma first_decisions_of_pair (subject_id : SubjectIdColumn) (e s : string)
    (ds : list Decision.t) (m : Z) :
  minimum_timestamp subject_id e s ds m ->
  filter (in_pair subject_id e s) (first_decisions subject_id ds)
  = filter (fun d => in_pair subject_id e s d && (Decision.timestamp d =? m)%Z) ds.
Proof.
  intros [(d0 & Hd0 & Hp0 & Ht0) Hmin].
  unfold first_decisions. rewrite filter_filter.
  apply filter_ext_in. intros d Hd.
  destruct (in_pair subject_id e s d) eqn:Hp; [| now rewrite andb_false_r].
  rewrite andb_true_r. cbn [andb].
  apply in_pair_spec in Hp as [He Hs]. apply in_pair_spec in Hp0 as [He0 Hs0].
  apply eq_true_iff_eq. rewrite rank_first, Z.eqb_eq. split.
  - intros H.
    assert ((Decision.timestamp d <= Decision.timestamp d0)%Z).
    { apply H; [assumption |]. apply same_partition_spec. split; congruence. }
    assert ((m <= Decision.timestamp d)%Z).
    { apply Hmin; [assumption |]. now apply in_pair_spec. }
    lia.
  - intros -> d' Hd' Hsame. apply same_partition_spec in Hsame as [He' Hs'].
    apply Hmin; [assumption |]. apply in_pair_spec. split; congruence.
Qed.

Lemma rows_of_pair (subject_id : SubjectIdColumn) (e s : string)
    (ds : list Decision.t) (m : Z) :
  minimum_timestamp subject_id e s ds m ->
  Permutation (filter (row_in_pair e s) (experiment_subjects subject_id ds))
    (map (select_subject subject_id)
       (filter (fun d => in_pair subject_id e s d && (Decision.timestamp d =? m)%Z) ds)).
Proof.
  intros Hm.
  eapply perm_trans; [apply filter_perm, experiment_subjects_perm |].
  rewrite filter_map_swap.
  change (fun a => row_in_pair e s (select_subject subject_id a))
    with (in_pair subject_id e s).
  rewrite (first_decisions_of_pair Hm). apply Permutation_refl.
Qed.

(** The rows of a pair are the projections of its decisions of minimum
    timestamp. *)
Lemma row_of_pair_iff (subject_id : SubjectIdColumn) (e s : string)
    (ds : list Decision.t) (m : Z) :
  minimum_timestamp subject_id e s ds m ->
  forall row,
    In row (experiment_subjects subject_id ds) /\ row_in_pair e s row = true <->
    exists d, row = select_subject subject_id d /\ In d ds
              /\ in_pair subject_id e s d = true /\ Decision.timestamp d = m.
Proof.
  intros Hm row. pose proof (rows_of_pair Hm) as Hperm.
  rewrite <- filter_In. split.
  - intros H. eapply Permutation_in in H; [| exact Hperm].
    apply in_map_iff in H as (d & <- & Hd).
    apply filter_In in Hd as (Hd & Hc). apply andb_true_iff in Hc as [Hp Ht].
    apply Z.eqb_eq in Ht. now exists d.
  - intros (d & -> & Hd & Hp & Ht).
    eapply Permutation_in; [apply Permutation_sym, Hperm |].
    apply in_map, filter_In. split; [assumption |].
    rewrite Hp. simpl. now apply Z.eqb_eq.
Qed.

Lemma pair_has_row (subject_id : SubjectIdColumn) (e s : string)
    (ds : list Decision.t) (m : Z) :
  minimum_timestamp subject_id e s ds m ->
  exists row, In row (experiment_subjects subject_id ds) /\ row_in_pair e s row = true.
Proof.
  intros Hm. pose proof (row_of_pair_iff Hm) as Hrow.
  destruct Hm as [(d & Hd & Hp & Ht) _].
  exists (select_subject subject_id d). apply Hrow. now exists d.
Qed.

(** A pair has as many rows as it has decisions tied at its minimum
    timestamp: exactly one when the earliest decision is unique. *)
Lemma rows_of_pair_count (subject_id : SubjectIdColumn) (e s : string)
    (ds : list Decision.t) (m : Z) :
  minimum_timestamp subject_id e s ds m ->
  length (filter (row_in_pair e s) (experiment_subjects subject_id ds))
  = length (filter (fun d => in_pair subject_id e s d && (Decision.timestamp d =? m)%Z) ds).
Proof.
  intros Hm. rewrite (Permutation_length (rows_of_pair Hm)). apply length_map.
Qed.

(** C1. For every filtered decision collection and every (experiment_id,
    subject_id) pair present in it, with [m] the minimum timestamp over the
    pair's decisions, the rows of [experiment_subjects] for the pair are
    exactly (as a bag) the projections of the pair's decisions of timestamp
    [m], so all decisions tied at the minimum are retained; there is at
    least one such row; and each row of the pair carries the timestamp [m]
    and the variation_id of a decision of the pair achieving it. On the
    decisions (s1,e1,vA,10), (s1,e1,vB,20), (s2,e1,vA,15) with window
    [0,100] the output is exactly (s1,e1,vA,10), (s2,e1,vA,15). *)
Theorem experiment_subjects_minimum_timestamp :
  (forall (subject_id : SubjectIdColumn) (decisions_start decisions_end : Z)
          (loaded_decisions : list Decision.t) (e s : string) (m : Z),
     let ds := decisions decisions_start decisions_end loaded_decisions in
     minimum_timestamp subject_id e s ds m ->
     Permutation (filter (row_in_pair e s) (experiment_subjects subject_id ds))
       (map (select_subject subject_id)
          (filter (fun d => in_pair subject_id e s d && (Decision.timestamp d =? m)%Z) ds))
     /\ (exists row, In row (experiment_subjects subject_id ds)
                     /\ row_in_pair e s row = true)
     /\ (forall row, In row (experiment_subjects subject_id ds) ->
           row_in_pair e s row = true ->
           Subject.timestamp row = m
           /\ exists d, In d ds /\ in_pair subject_id e s d = true
                        /\ Decision.timestamp d = m
                        /\ Decision.variation_id d = Subject.variation_id row))
  /\ experiment_subjects visitor_id_column (decisions 0 100 Scenario.decisions)
     = [Subject.mk "s1" "e1" "vA" 10; Subject.mk "s2" "e1" "vA" 15].
Proof.
  split; [| reflexivity].
  intros subject_id ws we loaded e s m ds Hm.
  split; [exact (rows_of_pair Hm) |].
  pose proof (row_of_pair_iff Hm) as Hrow.
  split; [exact (pair_has_row Hm) |].
  intros row Hin Hp.
  destruct (proj1 (Hrow row) (conj Hin Hp)) as (d & -> & Hd & Hpd & Ht).
  split; [exact Ht |]. now exists d.
Qed.

(** The first scenario decision carries the minimum timestamp of (e1, s1). *)
Lemma experiment_subjects_minimum_timestamp_witness :
  Permutation
    (filter (row_in_pair "e1" "s1")
       (experiment_subjects visitor_id_column (decisions 0 100 Scenario.decisions)))
    [Subject.mk "s1" "e1" "vA" 10].
Proof.
  refine (proj1 (proj1 experiment_subjects_minimum_timestamp
                   visitor_id_column 0%Z 100%Z Scenario.decisions "e1"%string "s1"%string 10%Z _)).
  split.
  - exists (Scenario.decision "s1" "e1" "vA" 10). simpl. auto.
  - intros d Hd Hp. simpl in Hd.
    destruct Hd as [<- | [<- | [<- | []]]]; simpl in *; try lia; discriminate.
Defined.

(** C6 (on the failing input). Two decisions of subject s1 for experiment
    e1 with the same timestamp both have rank 1: [experiment_subjects] has
    two rows for the pair (e1, s1), and the [subject_count] rollup counts
    the one subject once in each variation. *)
Theorem experiment_subjects_tied_rows :
  experiment_subjects visitor_id_column (decisions 0 100 Scenario.tied_decisions)
  = [Subject.mk "s1" "e1" "vA" 10; Subject.mk "s1" "e1" "vB" 10]
  /\ length (filter (row_in_pair "e1" "s1")
       (experiment_subjects visitor_id_column (decisions 0 100 Scenario.tied_decisions))) = 2
  /\ subject_count
       (experiment_subjects visitor_id_column (decisions 0 100 Scenario.tied_decisions))
     = [("e1", "vA", 1); ("e1", "vB", 1)]%string.
Proof. repeat split; reflexivity. Qed.

End SubjectsProofs.

(** ** Unique visitors *)

Module VisitorProofs.
Import Sql SqlFacts EnrichedEvents AttributionSpec SubjectsProofs.

Lemma pair_dec_eqb (a b e v : string) :
  (if pair_dec (a, b) (e, v) then true else false) = ((a =? e)%string && (b =? v)%string).
Proof.
  destruct (pair_dec (a, b) (e, v)) as [E | E].
  - injection E as -> ->. now rewrite !String.eqb_refl.
  - symmetry. apply not_true_is_false. intros H. apply E.
    apply andb_true_iff in H as [H1 H2].
    apply String.eqb_eq in H1, H2. congruence.
Qed.

Lemma triple_dec_eqb (a b c e v n : string) :
  (if triple_dec (a, b, c) (e, v, n) then true else false)
  = ((a =? e)%string && (b =? v)%string && (c =? n)%string).
Proof.
  destruct (triple_dec (a, b, c) (e, v, n)) as [E | E].
  - injection E as -> -> ->. now rewrite !String.eqb_refl.
  - symmetry. apply not_true_is_false. intros H. apply E.
    apply andb_true_iff in H as [H H3]. apply andb_true_iff in H as [H1 H2].
    apply String.eqb_eq in H1, H2, H3. congruence.
Qed.

(** The group of (e, v) among the in-window non-holdback decisions. *)
Lemma exposures_group (start end_ : Z) (views : Views.t) (e v : string) :
  group pair_dec (fun d => (Decision.experiment_id d, Decision.variation_id d))
    (exposures start end_ views) (e, v)
  = filter (exposure_of start end_ e v) (Views.decisions views).
Proof.
  unfold group, exposures. rewrite filter_filter. apply filter_ext. intros d.
  unfold exposure_of, has_key. rewrite pair_dec_eqb, andb_assoc.
  now destruct (Decision.is_holdback d).
Qed.

Lemma unique_visitors_full_stack_count (start end_ : Z) (views : Views.t) (e v : string) :
  count_of pair_dec (e, v) (unique_visitors_full_stack start end_ views)
  = length (nodup string_dec
      (map Decision.visitor_id
         (filter (exposure_of start end_ e v) (Views.decisions views)))).
Proof.
  unfold unique_visitors_full_stack.
  rewrite count_of_group_by_unordered by reflexivity.
  unfold count_distinct. now rewrite exposures_group.
Qed.

Lemma nodup_length_le {A : Type} (A_dec : forall x y : A, {x = y} + {x <> y}) (l : list A) :
  length (nodup A_dec l) <= length l.
Proof.
  induction l as [|x l IH]; simpl; [lia |].
  destruct (in_dec A_dec x l); simpl; lia.
Qed.

(** C4. For every input and every (experiment_id, variation_id) pair, the
    Full Stack unique-visitor count is the number of distinct visitor ids
    among the decisions of the pair with timestamp in [start, end] and
    is_holdback = false: it is the length of a duplicate-free list whose
    elements are exactly the visitor ids of these decisions. It never
    exceeds the number of these decision rows. *)
Theorem unique_visitors_full_stack_distinct_subjects :
  forall (start end_ : Z) (views : Views.t) (e v : string),
    let rows := filter (exposure_of start end_ e v) (Views.decisions views) in
    let n := count_of pair_dec (e, v) (unique_visitors_full_stack start end_ views) in
    (exists subjects : list string,
        NoDup subjects
        /\ (forall s, In s subjects <->
                      exists d, In d (Views.decisions views)
                                /\ exposure_of start end_ e v d = true
                                /\ Decision.visitor_id d = s)
        /\ n = length subjects)
    /\ n = length (nodup string_dec (map Decision.visitor_id rows))
    /\ n <= length rows.
Proof.
  intros start end_ views e v rows n.
  assert (Hn : n = length (nodup string_dec (map Decision.visitor_id rows)))
    by apply unique_visitors_full_stack_count.
  split; [| split; [exact Hn |]].
  - exists (nodup string_dec (map Decision.visitor_id rows)).
    split; [apply NoDup_nodup |]. split; [| exact Hn].
    intros s. rewrite nodup_In, in_map_iff. split.
    + intros (d & Hs & Hd). apply filter_In in Hd as [Hd Hq]. now exists d.
    + intros (d & Hd & Hq & Hs). exists d. split; [assumption |].
      apply filter_In. now split.
  - rewrite Hn. etransitivity; [apply nodup_length_le |]. now rewrite length_map.
Qed.

Lemma web_visitors_In (start end_ : Z) (views : Views.t) (row : string * string * string) :
  In row (web_visitors start end_ views) <->
  In row (map (fun p => (Attribution.experiment_id (snd p),
                         Attribution.variation_id (snd p),
                         Event.visitor_id (fst p)))
            (exploded_events start end_ views))
  \/ In row (map (fun d => (Decision.experiment_id d, Decision.variation_id d,
                            Decision.visitor_id d))
               (exposures start end_ views)).
Proof. unfold web_visitors, union. now rewrite nodup_In, in_app_iff. Qed.

(** C10. For every input and every (experiment_id, variation_id) pair, the
    Web unique-visitor count is at least the Full Stack unique-visitor
    count: the triples whose distinct subjects Web counts are the exploded
    in-window event triples together with the in-window non-holdback
    decision triples, and the latter are the ones Full Stack counts. *)
Theorem unique_visitors_web_at_least_full_stack :
  forall (start end_ : Z) (views : Views.t) (e v : string),
    count_of pair_dec (e, v) (unique_visitors_full_stack start end_ views)
    <= count_of pair_dec (e, v) (unique_visitors_web start end_ views)
    /\ (forall row, In row (web_visitors start end_ views) <->
          In row (map (fun p => (Attribution.experiment_id (snd p),
                                 Attribution.variation_id (snd p),
                                 Event.visitor_id (fst p)))
                    (exploded_events start end_ views))
          \/ In row (map (fun d => (Decision.experiment_id d, Decision.variation_id d,
                                    Decision.visitor_id d))
                       (exposures start end_ views))).
Proof.
  intros start end_ views e v. split; [| apply web_visitors_In].
  rewrite unique_visitors_full_stack_count.
  unfold unique_visitors_web. rewrite count_of_group_by by reflexivity.
  unfold count_distinct.
  apply NoDup_incl_length; [apply NoDup_nodup |].
  intros s Hs. apply nodup_In in Hs. apply nodup_In.
  apply in_map_iff in Hs as (d & <- & Hd).
  rewrite <- exposures_group in Hd. apply in_group in Hd as [Hd Hk].
  apply in_map_iff.
  exists (Decision.experiment_id d, Decision.variation_id d, Decision.visitor_id d).
  split; [reflexivity |].
  apply in_group. split; [| exact Hk].
  apply web_visitors_In. right.
  now apply (in_map (fun d => (Decision.experiment_id d, Decision.variation_id d,
                               Decision.visitor_id d))).
Qed.

End VisitorProofs.

(** ** Holdbacks and the subject attribution engine *)

Module HoldbackProofs.
Import Sql SqlFacts ExperimentSubjects SubjectsSpec AttributionSpec SubjectsProofs VisitorProofs.

Lemma select_subject_flip (subject_id : SubjectIdColumn) (d : Decision.t) :
  select_subject subject_id (flip_holdback d) = select_subject subject_id d.
Proof. destruct subject_id; reflexivity. Qed.

Lemma rank_flip (subject_id : SubjectIdColumn) (ds : list Decision.t) (d : Decision.t) :
  rank (same_partition subject_id) Decision.timestamp (map flip_holdback ds) (flip_holdback d)
  = rank (same_partition subject_id) Decision.timestamp ds d.
Proof.
  unfold rank. rewrite filter_map_swap, length_map. do 2 f_equal.
Qed.

Lemma first_decisions_flip (subject_id : SubjectIdColumn) (ds : list Decision.t) :
  first_decisions subject_id (map flip_holdback ds)
  = map flip_holdback (first_decisions subject_id ds).
Proof.
  unfold first_decisions. rewrite filter_map_swap. f_equal.
  apply filter_ext. intros d. now rewrite rank_flip.
Qed.

Lemma decisions_flip (decisions_start decisions_end : Z) (loaded : list Decision.t) :
  decisions decisions_start decisions_end (map flip_holdback loaded)
  = map flip_holdback (decisions decisions_start decisions_end loaded).
Proof. unfold decisions, window_filter. now rewrite filter_map_swap. Qed.

Lemma experiment_subjects_flip (subject_id : SubjectIdColumn) (ds : list Decision.t) :
  experiment_subjects subject_id (map flip_holdback ds)
  = experiment_subjects subject_id ds.
Proof.
  rewrite !experiment_subjects_unfold, first_decisions_flip, map_map.
  f_equal; apply map_ext; intros d; apply select_subject_flip.
Qed.

(** Every pair present in the decisions has a minimum timestamp. *)
Lemma minimum_timestamp_exists (subject_id : SubjectIdColumn) (ds : list Decision.t)
    (d : Decision.t) :
  In d ds ->
  exists m, minimum_timestamp subject_id (Decision.experiment_id d)
              (subject_of subject_id d) ds m.
Proof.
  intros Hd.
  set (e := Decision.experiment_id d). set (s := subject_of subject_id d).
  assert (Hp : in_pair subject_id e s d = true) by now apply in_pair_spec.
  destruct (minimum (map Decision.timestamp (filter (in_pair subject_id e s) ds)))
    as [m|] eqn:E.
  - exists m. apply minimum_spec in E as [Hin Hmin]. split.
    + apply in_map_iff in Hin as (d0 & Ht & Hd0).
      apply filter_In in Hd0 as [Hd0 Hp0]. now exists d0.
    + intros d' Hd' Hp'. apply Hmin, in_map, filter_In. now split.
  - apply minimum_none in E. apply map_eq_nil in E.
    assert (Hin : In d (filter (in_pair subject_id e s) ds)) by (apply filter_In; now split).
    rewrite E in Hin. contradiction.
Qed.

Lemma subject_count_of_row (subjects : list Subject.t) (row : Subject.t) :
  In row subjects ->
  1 <= count_of pair_dec (Subject.experiment_id row, Subject.variation_id row)
         (subject_count subjects).
Proof.
  intros Hrow. unfold subject_count.
  rewrite count_of_group_by by reflexivity.
  unfold count_rows.
  assert (Hin : In row (group pair_dec
                          (fun s => (Subject.experiment_id s, Subject.variation_id s))
                          subjects (Subject.experiment_id row, Subject.variation_id row)))
    by (apply in_group; now split).
  destruct (group _ _ _ _); [contradiction | simpl; lia].
Qed.

(** C9. [experiment_subjects] never consults [is_holdback]: on every
    decision set, and on every loaded table through the window filter, its
    output is unchanged when every [is_holdback] value is flipped. So every
    decision of the filtered set, holdback or not, gives its (experiment,
    subject) pair a row of [experiment_subjects], which the [subject_count]
    rollup counts. The Full Stack unique-visitor count differs: it is 0
    for an (experiment, variation) whose in-window decisions are all
    holdbacks. For a subject whose only decision is a holdback,
    [experiment_subjects] has its row and the rollup counts it, while the
    Full Stack unique-visitor query returns no row. *)
Theorem experiment_subjects_ignores_is_holdback :
  (forall (subject_id : SubjectIdColumn) (ds : list Decision.t),
     experiment_subjects subject_id (map flip_holdback ds)
     = experiment_subjects subject_id ds)
  /\ (forall (subject_id : SubjectIdColumn) (decisions_start decisions_end : Z)
             (loaded : list Decision.t),
        experiment_subjects subject_id
          (decisions decisions_start decisions_end (map flip_holdback loaded))
        = experiment_subjects subject_id (decisions decisions_start decisions_end loaded))
  /\ (forall (subject_id : SubjectIdColumn) (decisions_start decisions_end : Z)
             (loaded : list Decision.t) (d : Decision.t),
        let subjects :=
          experiment_subjects subject_id (decisions decisions_start decisions_end loaded) in
        In d (decisions decisions_start decisions_end loaded) ->
        exists row, In row subjects
          /\ row_in_pair (Decision.experiment_id d) (subject_of subject_id d) row = true
          /\ 1 <= count_of pair_dec (Subject.experiment_id row, Subject.variation_id row)
                    (subject_count subjects))
  /\ (forall (start end_ : Z) (views : EnrichedEvents.Views.t) (e v : string),
        (forall d, In d (EnrichedEvents.Views.decisions views) ->
                   Decision.experiment_id d = e -> Decision.variation_id d = v ->
                   between (Decision.timestamp d) start end_ = true ->
                   Decision.is_holdback d = true) ->
        count_of pair_dec (e, v)
          (EnrichedEvents.unique_visitors_full_stack start end_ views) = 0)
  /\ (experiment_subjects visitor_id_column (decisions 0 100 Scenario.holdback_decisions)
      = [Subject.mk "s1" "e1" "vA" 10]
      /\ subject_count
           (experiment_subjects visitor_id_column (decisions 0 100 Scenario.holdback_decisions))
         = [("e1", "vA", 1)]%string
      /\ EnrichedEvents.unique_visitors_full_stack 0 100
           (EnrichedEvents.Views.mk Scenario.holdback_decisions []) = []).
Proof.
  split; [exact experiment_subjects_flip |].
  split; [intros; rewrite decisions_flip; apply experiment_subjects_flip |].
  split; [| split; [| repeat split; reflexivity]].
  - intros subject_id ws we loaded d subjects Hd.
    destruct (minimum_timestamp_exists subject_id _ _ Hd) as [m Hm].
    destruct (pair_has_row Hm) as (row & Hrow & Hp).
    exists row. repeat split; try assumption.
    now apply subject_count_of_row.
  - intros start end_ views e v Hall.
    rewrite unique_visitors_full_stack_count.
    rewrite (filter_ext_in _ (fun _ => false)); [now rewrite filter_false |].
    intros d Hd. unfold exposure_of.
    destruct (between (Decision.timestamp d) start end_) eqn:Hb; [| reflexivity].
    destruct (Decision.experiment_id d =? e)%string eqn:He; [| now rewrite andb_false_r].
    destruct (Decision.variation_id d =? v)%string eqn:Hv; [| now rewrite andb_false_r].
    apply String.eqb_eq in He, Hv. now rewrite (Hall d Hd He Hv Hb).
Qed.

End HoldbackProofs.

(** ** Conversion counts, Optimizely Web *)

Module WebConversionProofs.
Import Sql SqlFacts EnrichedEvents AttributionSpec SubjectsProofs VisitorProofs.

Lemma exploded_event_rows (start end_ : Z) (e v n : string) (ev : Event.t)
    (attributions : list Attribution.t) :
  length
    (filter (has_key triple_dec
               (fun p : Event.t * Attribution.t =>
                  (Attribution.experiment_id (snd p), Attribution.variation_id (snd p),
                   Event.event_name (fst p)))
               (e, v, n))
       (filter (fun p => between (Event.timestamp (fst p)) start end_)
          (map (fun a => (ev, a)) attributions)))
  = if occurrence_of start end_ n ev
    then length (filter (is_attribution e v) attributions)
    else 0.
Proof.
  rewrite filter_filter, filter_map_swap, length_map.
  unfold has_key, occurrence_of. cbn [fst snd].
  destruct ((Event.event_name ev =? n)%string
            && between (Event.timestamp ev) start end_) eqn:E.
  - apply andb_true_iff in E as [En Eb]. f_equal. apply filter_ext. intros a.
    rewrite triple_dec_eqb, Eb, En. unfold is_attribution.
    now rewrite andb_true_r.
  - rewrite (filter_ext _ (fun _ => false)); [now rewrite filter_false |].
    intros a. rewrite triple_dec_eqb.
    apply andb_false_iff in E as [-> | ->]; now rewrite ?andb_false_r.
Qed.

Lemma exploded_group_length (start end_ : Z) (views : Views.t) (e v n : string) :
  length
    (group triple_dec
       (fun p : Event.t * Attribution.t =>
          (Attribution.experiment_id (snd p), Attribution.variation_id (snd p),
           Event.event_name (fst p)))
       (exploded_events start end_ views) (e, v, n))
  = list_sum (map (listed_times e v)
                (filter (occurrence_of start end_ n) (Views.events views))).
Proof.
  unfold group, exploded_events, lateral_view_explode.
  induction (Views.events views) as [|ev l IH]; [reflexivity |].
  cbn [flat_map]. rewrite !filter_app, length_app, IH, exploded_event_rows.
  cbn [filter]. destruct (occurrence_of start end_ n ev); reflexivity.
Qed.

Lemma conversion_count_web_count (start end_ : Z) (views : Views.t) (e v n : string) :
  count_of triple_dec (e, v, n) (conversion_count_web start end_ views)
  = list_sum (map (listed_times e v)
                (filter (occurrence_of start end_ n) (Views.events views))).
Proof.
  unfold conversion_count_web. rewrite count_of_group_by by reflexivity.
  apply exploded_group_length.
Qed.

Lemma listed_once (e v : string) (ev : Event.t) :
  listed_times e v ev <= 1 ->
  listed_times e v ev = if lists e v ev then 1 else 0.
Proof.
  unfold listed_times, lists.
  induction (Event.experiments ev) as [|a l IH]; cbn [filter existsb]; [reflexivity |].
  destruct (is_attribution e v a); cbn [orb length].
  - lia.
  - exact IH.
Qed.

(** C5 (amended). The Web conversion count is computed from the events
    alone: two inputs with the same events and arbitrary (possibly empty)
    decisions give the same Web conversion counts. For every
    (experiment_id, variation_id, event_name) the count is the number of
    entries equal to (experiment_id, variation_id) in the [experiments]
    lists of the occurrences of the event with timestamp in [start, end]:
    one count per entry of each occurrence, not deduplicated by subject,
    whether or not a decision exists in the window. It is the number of
    these occurrences whose list contains the pair whenever no list of the
    input names the pair more than once. *)
Theorem conversion_count_web_events_only :
  (forall (start end_ : Z) (views views' : Views.t),
     Views.events views = Views.events views' ->
     conversion_count_web start end_ views = conversion_count_web start end_ views')
  /\ (forall (start end_ : Z) (views : Views.t) (e v n : string),
        count_of triple_dec (e, v, n) (conversion_count_web start end_ views)
        = list_sum (map (listed_times e v)
                      (filter (occurrence_of start end_ n) (Views.events views))))
  /\ (forall (start end_ : Z) (views : Views.t) (e v n : string),
        (forall ev, In ev (Views.events views) -> listed_times e v ev <= 1) ->
        count_of triple_dec (e, v, n) (conversion_count_web start end_ views)
        = length (filter (fun ev => occurrence_of start end_ n ev && lists e v ev)
                    (Views.events views))).
Proof.
  split; [| split].
  - intros start end_ views views' H.
    unfold conversion_count_web, exploded_events. now rewrite H.
  - apply conversion_count_web_count.
  - intros start end_ views e v n Honce. rewrite conversion_count_web_count.
    induction (Views.events views) as [|ev l IH]; [reflexivity |].
    cbn [filter].
    assert (Hev : listed_times e v ev <= 1) by (apply Honce; now left).
    assert (Hl : forall ev', In ev' l -> listed_times e v ev' <= 1)
      by (intros ev' H'; apply Honce; now right).
    specialize (IH Hl).
    destruct (occurrence_of start end_ n ev); cbn [andb map]; [| exact IH].
    change (listed_times e v ev
            + list_sum (map (listed_times e v) (filter (occurrence_of start end_ n) l))
            = length (if lists e v ev
                      then ev :: filter (fun ev => occurrence_of start end_ n ev
                                                   && lists e v ev) l
                      else filter (fun ev => occurrence_of start end_ n ev
                                             && lists e v ev) l)).
    rewrite (listed_once _ _ _ Hev), IH.
    destruct (lists e v ev); reflexivity.
Qed.

(** With the same event and no decisions at all the count is the same, and
    an event that names the pair once counts once. *)
Lemma conversion_count_web_events_only_witness :
  conversion_count_web 0 100 (Views.mk Scenario.decisions [Scenario.purchase 5])
  = conversion_count_web 0 100 (Views.mk [] [Scenario.purchase 5])
  /\ count_of triple_dec ("e1", "vA", "purchase")%string
       (conversion_count_web 0 100 (Views.mk [] [Scenario.purchase 5])) = 1.
Proof.
  split.
  - apply (proj1 conversion_count_web_events_only). reflexivity.
  - rewrite (proj2 (proj2 conversion_count_web_events_only)); [reflexivity |].
    intros ev [<- | []]. cbv. lia.
Defined.

(** C5 (as stated) fails on an event whose [experiments] list names the pair
    twice: the one occurrence is counted twice. *)
Lemma conversion_count_web_repeated_attribution :
  count_of triple_dec ("e1", "vA", "purchase")%string
    (conversion_count_web 0 100 (Views.mk [] [Scenario.repeated_attribution]))
  <> length (filter (fun ev => occurrence_of 0 100 "purchase" ev && lists "e1" "vA" ev)
               (Views.events (Views.mk [] [Scenario.repeated_attribution]))).
Proof. vm_compute. discriminate. Qed.

End WebConversionProofs.

(** ** Conversion counts, Optimizely Full Stack *)

Module FullStackProofs.
Import Sql SqlFacts EnrichedEvents AttributionSpec SubjectsProofs VisitorProofs.

Lemma not_before_minimum (t : Z) (l : list Z) :
  not_before t (minimum l) = existsb (fun x => (x <=? t)%Z) l.
Proof.
  destruct (minimum l) as [m|] eqn:E.
  - apply minimum_spec in E as [Hin Hmin]. cbn [not_before].
    apply eq_true_iff_eq. rewrite Z.leb_le, existsb_exists. split.
    + intros H. exists m. now rewrite Z.leb_le.
    + intros (x & Hx & Hle). apply Z.leb_le in Hle. specialize (Hmin x Hx). lia.
  - apply minimum_none in E. now subst.
Qed.

Lemma existsb_filter {A : Type} (p q : A -> bool) (l : list A) :
  existsb p (filter q l) = existsb (fun x => q x && p x) l.
Proof.
  induction l as [|x l IH]; simpl; [reflexivity |].
  destruct (q x); simpl; now rewrite IH.
Qed.

Lemma existsb_map {A B : Type} (p : B -> bool) (f : A -> B) (l : list A) :
  existsb p (map f l) = existsb (fun x => p (f x)) l.
Proof. induction l as [|x l IH]; simpl; [reflexivity | now rewrite IH]. Qed.

Section OneRowPerGroup.
Variables R K V : Type.
Variable K_dec : forall x y : K, {x = y} + {x <> y}.
Variable key : R -> K.
Variable agg : list R -> V.

Lemma nodup_filter_key (c : K -> bool) (k0 : K) (keys : list K) :
  NoDup keys ->
  length (filter (fun k => (if K_dec k k0 then true else false) && c k) keys)
  = if in_dec K_dec k0 keys then (if c k0 then 1 else 0) else 0.
Proof.
  induction 1 as [|k keys Hk Hnd IH]; [reflexivity |].
  cbn [filter]. destruct (K_dec k k0) as [-> | Hne]; cbn [andb].
  - destruct (in_dec K_dec k0 (k0 :: keys)) as [_ | Hout]; [| exfalso; apply Hout; now left].
    destruct (in_dec K_dec k0 keys); [contradiction |].
    destruct (c k0); cbn [length]; now rewrite IH.
  - rewrite IH.
    destruct (in_dec K_dec k0 keys) as [Hin | Hout];
      destruct (in_dec K_dec k0 (k :: keys)) as [Hin' | Hout']; try reflexivity.
    + exfalso. apply Hout'. now right.
    + destruct Hin' as [E | Hin']; [congruence | contradiction].
Qed.

(** A grouped result has exactly one row per group: among its rows, those
    of key [k0] whose aggregate satisfies [c] are one or none. *)
Lemma group_by_filter_length (c : V -> bool) (rows : list R) (k0 : K) :
  c (agg []) = false ->
  length (filter (fun row => (if K_dec (fst row) k0 then true else false) && c (snd row))
            (group_by K_dec key agg rows))
  = if c (agg (group K_dec key rows k0)) then 1 else 0.
Proof.
  intros Hnil. unfold group_by. rewrite filter_map_swap, length_map. cbn [fst snd].
  rewrite (nodup_filter_key (fun k => c (agg (group K_dec key rows k))))
    by apply NoDup_nodup.
  destruct (in_dec K_dec k0 (group_keys K_dec key rows)) as [Hin | Hout]; [reflexivity |].
  unfold group_keys in Hout. rewrite nodup_In in Hout.
  now rewrite (group_absent _ _ _ _ Hout), Hnil.
Qed.

Lemma group_by_In (rows : list R) (k : K) (x : V) :
  In (k, x) (group_by K_dec key agg rows) <->
  (exists r, In r rows /\ key r = k) /\ x = agg (group K_dec key rows k).
Proof.
  unfold group_by, group_keys. rewrite in_map_iff. split.
  - intros (k' & [= -> <-] & Hk). rewrite nodup_In, in_map_iff in Hk.
    destruct Hk as (r & Hr & Hin). split; [now exists r | reflexivity].
  - intros [(r & Hr & <-) ->]. exists (key r). split; [reflexivity |].
    rewrite nodup_In. now apply in_map.
Qed.
End OneRowPerGroup.

Lemma inner_join_In {A B : Type} (on : A -> B -> bool) (l : list A) (r : list B)
    (a : A) (b : B) :
  In (a, b) (inner_join on l r) <-> In a l /\ In b r /\ on a b = true.
Proof. unfold inner_join. rewrite filter_In, in_prod_iff. cbn [fst snd]. tauto. Qed.

Lemma inner_join_filter_l {A B : Type} (on : A -> B -> bool) (p : A -> bool)
    (l : list A) (r : list B) :
  inner_join on (filter p l) r = filter (fun x => p (fst x)) (inner_join on l r).
Proof.
  rewrite !inner_join_flat_map, flat_map_filter, filter_flat_map.
  apply flat_map_ext. intros a. rewrite filter_map_swap. cbn [fst].
  destruct (p a); [now rewrite filter_true | now rewrite filter_false].
Qed.

(** The group of (e, v, s) among the in-window non-holdback decisions. *)
Lemma exposures_subject_group (start end_ : Z) (views : Views.t) (e v s : string) :
  group triple_dec
    (fun d => (Decision.experiment_id d, Decision.variation_id d, Decision.visitor_id d))
    (exposures start end_ views) (e, v, s)
  = filter (exposure_of_subject start end_ e v s) (Views.decisions views).
Proof.
  unfold group, exposures. rewrite filter_filter. apply filter_ext. intros d.
  unfold exposure_of_subject, exposure_of, has_key. rewrite triple_dec_eqb.
  destruct (Decision.is_holdback d); cbn [Bool.eqb negb];
    rewrite ?andb_false_r, ?andb_true_r, ?andb_assoc; reflexivity.
Qed.

Lemma decision_timestamps_In (start end_ : Z) (views : Views.t) (e v s : string)
    (dts : option Z) :
  In (e, v, s, dts) (decision_timestamps start end_ views) <->
  (exists d, In d (Views.decisions views) /\ exposure_of_subject start end_ e v s d = true)
  /\ dts = minimum (map Decision.timestamp
                      (filter (exposure_of_subject start end_ e v s) (Views.decisions views))).
Proof.
  unfold decision_timestamps. rewrite group_by_In, exposures_subject_group.
  apply and_iff_compat_r. split.
  - intros (d & Hd & Hk).
    assert (Hg : In d (group triple_dec
                         (fun d => (Decision.experiment_id d, Decision.variation_id d,
                                    Decision.visitor_id d))
                         (exposures start end_ views) (e, v, s)))
      by (apply in_group; now split).
    rewrite exposures_subject_group in Hg. apply filter_In in Hg. now exists d.
  - intros (d & Hd & Hq).
    assert (Hg : In d (filter (exposure_of_subject start end_ e v s) (Views.decisions views)))
      by (apply filter_In; now split).
    rewrite <- exposures_subject_group in Hg. apply in_group in Hg. now exists d.
Qed.

Lemma joined_events_In (start end_ : Z) (views : Views.t) (ev : Event.t)
    (e v s : string) (dts : option Z) :
  In (ev, (e, v, s, dts)) (joined_events start end_ views) <->
  In ev (Views.events views)
  /\ In (e, v, s, dts) (decision_timestamps start end_ views)
  /\ Event.visitor_id ev = s
  /\ (start <= Event.timestamp ev <= end_)%Z
  /\ not_before (Event.timestamp ev) dts = true.
Proof.
  unfold joined_events. rewrite filter_In, inner_join_In. cbn [fst snd].
  rewrite andb_true_iff, between_spec, String.eqb_eq. tauto.
Qed.

Lemma conversion_count_full_stack_joined (start end_ : Z) (views : Views.t) (e v n : string) :
  count_of triple_dec (e, v, n) (conversion_count_full_stack start end_ views)
  = length (filter (fun p => if triple_dec (fst (select_attributed p)) (e, v, n)
                             then true else false)
              (joined_events start end_ views)).
Proof.
  unfold conversion_count_full_stack. rewrite count_of_group_by by reflexivity.
  unfold count_rows, group, attributed_events, has_key.
  now rewrite filter_map_swap, length_map.
Qed.

(** What one event contributes to the count of (e, v, n): one, when it is
    an in-window occurrence of [n] whose subject was exposed to (e, v) in
    the window and not later than the event, and nothing otherwise. *)
Lemma joined_rows_of_event (start end_ : Z) (views : Views.t) (e v n : string)
    (ev : Event.t) :
  length
    (filter (fun p => if triple_dec (fst (select_attributed p)) (e, v, n)
                      then true else false)
       (filter (fun p : Event.t * (string * string * string * option Z) =>
                  between (Event.timestamp (fst p)) start end_
                  && not_before (Event.timestamp (fst p)) (snd (snd p)))
          (map (fun d => (ev, d))
             (filter (fun d : string * string * string * option Z =>
                        (Event.visitor_id ev =? snd (fst d))%string)
                (decision_timestamps start end_ views)))))
  = if occurrence_of start end_ n ev
       && exposed_before start end_ (Views.decisions views) e v ev
    then 1 else 0.
Proof.
  rewrite filter_filter, filter_map_swap, length_map, filter_filter.
  cbn [fst snd select_attributed].
  rewrite (filter_ext _
    (fun row : string * string * string * option Z =>
       (if triple_dec (fst row) (e, v, Event.visitor_id ev) then true else false)
       && (fun dts => occurrence_of start end_ n ev
                      && not_before (Event.timestamp ev) dts) (snd row))).
  - unfold decision_timestamps.
    rewrite (group_by_filter_length triple_dec _ _
               (fun dts => occurrence_of start end_ n ev
                           && not_before (Event.timestamp ev) dts))
      by apply andb_false_r.
    rewrite exposures_subject_group, not_before_minimum, existsb_map, existsb_filter.
    reflexivity.
  - intros [[[e' v'] s'] dts]. cbn [fst snd]. rewrite !triple_dec_eqb.
    unfold occurrence_of. rewrite (String.eqb_sym s').
    destruct (Event.visitor_id ev =? s')%string, (e' =? e)%string, (v' =? v)%string,
      (Event.event_name ev =? n)%string, (between (Event.timestamp ev) start end_),
      (not_before (Event.timestamp ev) dts); reflexivity.
Qed.

(** The Full Stack conversion count of (e, v, n) is the number of in-window
    occurrences of [n] whose subject has an in-window non-holdback decision
    for (e, v) that is not later than the event. *)
Lemma conversion_count_full_stack_count (start end_ : Z) (views : Views.t) (e v n : string) :
  count_of triple_dec (e, v, n) (conversion_count_full_stack start end_ views)
  = length (filter (fun ev => occurrence_of start end_ n ev
                              && exposed_before start end_ (Views.decisions views) e v ev)
              (Views.events views)).
Proof.
  rewrite conversion_count_full_stack_joined. unfold joined_events.
  rewrite inner_join_flat_map.
  generalize (decision_timestamps start end_ views) (joined_rows_of_event start end_ views e v n).
  intros D Hev.
  induction (Views.events views) as [|ev l IH]; [reflexivity |].
  cbn [flat_map filter]. rewrite !filter_app, length_app, IH, Hev.
  destruct (occurrence_of start end_ n ev
            && exposed_before start end_ (Views.decisions views) e v ev); reflexivity.
Qed.

Lemma exposure_of_subject_spec (start end_ : Z) (e v s : string) (d : Decision.t) :
  exposure_of_subject start end_ e v s d = true <->
  (start <= Decision.timestamp d <= end_)%Z
  /\ Decision.is_holdback d = false
  /\ Decision.experiment_id d = e
  /\ Decision.variation_id d = v
  /\ Decision.visitor_id d = s.
Proof.
  unfold exposure_of_subject, exposure_of.
  rewrite !andb_true_iff, between_spec, negb_true_iff, !String.eqb_eq. tauto.
Qed.

(** A joined row pairs an event with the earliest exposure of its subject. *)
Lemma joined_event_exposed (start end_ : Z) (views : Views.t) (ev : Event.t)
    (e v s : string) (dts : option Z) :
  In (ev, (e, v, s, dts)) (joined_events start end_ views) ->
  s = Event.visitor_id ev
  /\ (exists d, In d (Views.decisions views)
                /\ exposure_of_subject start end_ e v (Event.visitor_id ev) d = true)
  /\ (start <= Event.timestamp ev <= end_)%Z
  /\ exists m, dts = Some m
       /\ (exists d, In d (Views.decisions views)
                     /\ exposure_of_subject start end_ e v (Event.visitor_id ev) d = true
                     /\ Decision.timestamp d = m)
       /\ (forall d, In d (Views.decisions views) ->
                     exposure_of_subject start end_ e v (Event.visitor_id ev) d = true ->
                     (m <= Decision.timestamp d)%Z)
       /\ (m <= Event.timestamp ev)%Z.
Proof.
  intros H. apply joined_events_In in H as (Hev & HD & <- & Hwin & Hnb).
  apply decision_timestamps_In in HD as [Hex Hdts].
  split; [reflexivity |]. split; [exact Hex |]. split; [exact Hwin |].
  destruct dts as [m|]; [| discriminate]. exists m. split; [reflexivity |].
  symmetry in Hdts. apply minimum_spec in Hdts as [Hin Hmin].
  cbn [not_before] in Hnb. apply Z.leb_le in Hnb.
  split; [| split; [| exact Hnb]].
  - apply in_map_iff in Hin as (d & Ht & Hd). apply filter_In in Hd as [Hd Hq].
    now exists d.
  - intros d Hd Hq. apply Hmin, in_map, filter_In. now split.
Qed.

Lemma joined_events_without_subject (start end_ : Z) (views : Views.t) (s : string) :
  joined_events start end_ (without_subject s views)
  = filter (fun p => negb (Event.visitor_id (fst p) =? s)%string)
      (joined_events start end_ views).
Proof.
  unfold joined_events, without_subject. cbn [Views.events].
  change (decision_timestamps start end_
            (Views.mk (Views.decisions views)
               (filter (fun ev => negb (Event.visitor_id ev =? s)%string)
                  (Views.events views))))
    with (decision_timestamps start end_ views).
  rewrite inner_join_filter_l, !filter_filter. apply filter_ext. intros p.
  apply andb_comm.
Qed.

Lemma unexposed_subject_not_joined (start end_ : Z) (views : Views.t) (s : string) :
  (forall d, In d (Views.decisions views) -> Decision.visitor_id d = s ->
             between (Decision.timestamp d) start end_ = true ->
             Decision.is_holdback d = true) ->
  forall p, In p (joined_events start end_ views) -> Event.visitor_id (fst p) <> s.
Proof.
  intros Hno [ev [[[e v] s'] dts]] Hp Hs. cbn [fst] in Hs.
  apply joined_event_exposed in Hp as (_ & (d & Hd & Hq) & _).
  apply exposure_of_subject_spec in Hq as (Hwin & Hh & _ & _ & Hv).
  rewrite (Hno d Hd) in Hh; [discriminate | congruence | now apply between_spec].
Qed.

(** C2. Under the Full Stack policy, for every input: the count of an
    (experiment_id, variation_id, event_name) group is the number of joined
    rows of the group; every joined row pairs an event with the group of its
    own subject, and then the subject has at least one in-window
    non-holdback decision for that (experiment_id, variation_id), the
    event's timestamp is in [start, end], and the event's timestamp is
    greater than or equal to decision_timestamp, the minimum timestamp of
    these decisions; so the count is the number of in-window occurrences of
    the event whose subject has such a decision not later than the event.
    Consequently a subject with no in-window non-holdback decision is in
    no joined row, and removing its events changes no Full Stack
    conversion count. *)
Theorem conversion_count_full_stack_attribution :
  forall (start end_ : Z) (views : Views.t),
    (forall e v n,
        count_of triple_dec (e, v, n) (conversion_count_full_stack start end_ views)
        = length (filter (fun p => if triple_dec (fst (select_attributed p)) (e, v, n)
                                   then true else false)
                    (joined_events start end_ views)))
    /\ (forall ev e v s dts,
          In (ev, (e, v, s, dts)) (joined_events start end_ views) ->
          s = Event.visitor_id ev
          /\ (exists d, In d (Views.decisions views)
                        /\ exposure_of_subject start end_ e v (Event.visitor_id ev) d = true)
          /\ (start <= Event.timestamp ev <= end_)%Z
          /\ exists m, dts = Some m
               /\ (exists d, In d (Views.decisions views)
                      /\ exposure_of_subject start end_ e v (Event.visitor_id ev) d = true
                      /\ Decision.timestamp d = m)
               /\ (forall d, In d (Views.decisions views) ->
                      exposure_of_subject start end_ e v (Event.visitor_id ev) d = true ->
                      (m <= Decision.timestamp d)%Z)
               /\ (m <= Event.timestamp ev)%Z)
    /\ (forall e v n,
          count_of triple_dec (e, v, n) (conversion_count_full_stack start end_ views)
          = length (filter (fun ev => occurrence_of start end_ n ev
                                      && exposed_before start end_ (Views.decisions views) e v ev)
                      (Views.events views)))
    /\ (forall s,
          (forall d, In d (Views.decisions views) -> Decision.visitor_id d = s ->
                     between (Decision.timestamp d) start end_ = true ->
                     Decision.is_holdback d = true) ->
          (forall p, In p (joined_events start end_ views) -> Event.visitor_id (fst p) <> s)
          /\ conversion_count_full_stack start end_ (without_subject s views)
             = conversion_count_full_stack start end_ views).
Proof.
  intros start end_ views.
  split; [intros; apply conversion_count_full_stack_joined |].
  split; [intros ev e v s dts; apply joined_event_exposed |].
  split; [intros; apply conversion_count_full_stack_count |].
  intros s Hno.
  pose proof (unexposed_subject_not_joined start end_ views Hno) as Hout.
  split; [exact Hout |].
  unfold conversion_count_full_stack, attributed_events.
  rewrite joined_events_without_subject.
  rewrite (filter_ext_in _ (fun _ => true)); [now rewrite filter_true |].
  intros p Hp. apply negb_true_iff, String.eqb_neq. now apply Hout.
Qed.

(** The purchase at t=12 is joined with the (e1, vA) exposure of s1, whose
    decision_timestamp is 10; no event belongs to a subject s3. *)
Lemma conversion_count_full_stack_attribution_witness :
  (exists m, Some 10%Z = Some m
     /\ (exists d, In d Scenario.decisions
            /\ exposure_of_subject 0 100 "e1" "vA" "s1" d = true
            /\ Decision.timestamp d = m)
     /\ (forall d, In d Scenario.decisions ->
            exposure_of_subject 0 100 "e1" "vA" "s1" d = true ->
            (m <= Decision.timestamp d)%Z)
     /\ (m <= 12)%Z)
  /\ conversion_count_full_stack 0 100
       (without_subject "s3" (Views.mk Scenario.decisions [Scenario.purchase 12]))
     = conversion_count_full_stack 0 100 (Views.mk Scenario.decisions [Scenario.purchase 12]).
Proof.
  pose proof (conversion_count_full_stack_attribution 0 100
                (Views.mk Scenario.decisions [Scenario.purchase 12])) as (_ & Hrow & _ & Hno).
  split.
  - apply (Hrow (Scenario.purchase 12) "e1" "vA" "s1" (Some 10%Z))%string.
    cbv. left. reflexivity.
  - apply (Hno "s3"%string).
    intros d Hd Hs. cbn in Hd.
    destruct Hd as [<- | [<- | [<- | []]]]; discriminate Hs.
Defined.

End FullStackProofs.

(** ** Full Stack counting and the [experiments] enrichment *)

Module EnrichmentProofs.
Import Sql SqlFacts EnrichedEvents AttributionSpec SubjectsProofs VisitorProofs FullStackProofs.

Lemma attributed_events_without_enrichment (start end_ : Z) (views : Views.t) :
  attributed_events start end_ (without_enrichment views)
  = attributed_events start end_ views.
Proof.
  unfold attributed_events, joined_events, without_enrichment. cbn [Views.events].
  change (decision_timestamps start end_
            (Views.mk (Views.decisions views)
               (map strip_experiments (Views.events views))))
    with (decision_timestamps start end_ views).
  rewrite !inner_join_flat_map.
  generalize (decision_timestamps start end_ views). intros D.
  induction (Views.events views) as [|ev l IH]; [reflexivity |].
  cbn [map flat_map]. rewrite !filter_app, !map_app, IH. f_equal.
  rewrite !filter_map_swap, !map_map. reflexivity.
Qed.

Lemma conversion_count_full_stack_without_enrichment (start end_ : Z) (views : Views.t) :
  conversion_count_full_stack start end_ (without_enrichment views)
  = conversion_count_full_stack start end_ views.
Proof.
  unfold conversion_count_full_stack.
  now rewrite attributed_events_without_enrichment.
Qed.

(** C8. Full Stack counting never reads the [experiments] field of the
    events: two inputs with the same decisions whose events differ only in
    their [experiments] lists have the same Full Stack conversion counts
    and the same Full Stack unique-visitor counts. The join matches events
    to decisions on the visitor id alone: the count of (experiment_id,
    variation_id, event_name) is the number of in-window occurrences of the
    event whose subject has an in-window non-holdback decision for
    (experiment_id, variation_id) not later than the event, whatever the
    enrichment lists (here: with every list emptied). *)
Theorem full_stack_ignores_experiments_enrichment :
  forall (start end_ : Z) (views views' : Views.t),
    Views.decisions views = Views.decisions views' ->
    map strip_experiments (Views.events views)
    = map strip_experiments (Views.events views') ->
    conversion_count_full_stack start end_ views
    = conversion_count_full_stack start end_ views'
    /\ unique_visitors_full_stack start end_ views
       = unique_visitors_full_stack start end_ views'
    /\ (forall e v n,
          count_of triple_dec (e, v, n) (conversion_count_full_stack start end_ views)
          = length (filter (fun ev => occurrence_of start end_ n ev
                                      && exposed_before start end_ (Views.decisions views) e v ev)
                      (map strip_experiments (Views.events views)))).
Proof.
  intros start end_ views views' Hd He.
  assert (Hviews : without_enrichment views = without_enrichment views')
    by (unfold without_enrichment; now rewrite Hd, He).
  split; [| split].
  - rewrite <- (conversion_count_full_stack_without_enrichment start end_ views),
      <- (conversion_count_full_stack_without_enrichment start end_ views').
    now rewrite Hviews.
  - unfold unique_visitors_full_stack, exposures. now rewrite Hd.
  - intros e v n.
    rewrite <- (conversion_count_full_stack_without_enrichment start end_ views).
    apply (conversion_count_full_stack_count start end_ (without_enrichment views)).
Qed.

(** The purchase of the scenario, with its enrichment and with none. *)
Lemma full_stack_ignores_experiments_enrichment_witness :
  conversion_count_full_stack 0 100
    (Views.mk Scenario.decisions [Scenario.purchase 12])
  = conversion_count_full_stack 0 100
      (Views.mk Scenario.decisions [Event.mk "s1" "purchase" 12 []])
  /\ unique_visitors_full_stack 0 100
       (Views.mk Scenario.decisions [Scenario.purchase 12])
     = unique_visitors_full_stack 0 100
         (Views.mk Scenario.decisions [Event.mk "s1" "purchase" 12 []]).
Proof.
  destruct (full_stack_ignores_experiments_enrichment 0 100
              (Views.mk Scenario.decisions [Scenario.purchase 12])
              (Views.mk Scenario.decisions [Event.mk "s1" "purchase" 12 []])
              eq_refl eq_refl) as (Hc & Hu & _).
  split; assumption.
Defined.

End EnrichmentProofs.

(** ** The concrete scenario *)

Module ScenarioProofs.
Import Sql SqlFacts ExperimentSubjects EnrichedEvents AttributionSpec SubjectsSpec.
Import SubjectsProofs HoldbackProofs FullStackProofs.

(** C7. On the decisions (s1,e1,vA,10), (s1,e1,vB,20), (s2,e1,vA,15) with
    window [0,100]: with the single event (s1, "purchase", t=12,
    experiments=[(e1,vA)]) the Full Stack conversion count of
    (e1,vA,"purchase") is 1 and that of (e1,vB, any event name) is 0; with
    the event at t=5 instead, the Full Stack conversion count of
    (e1,vA,"purchase") is 0 while the Web conversion count of
    (e1,vA,"purchase") is 1. *)
Theorem purchase_scenario_conversion_counts :
  count_of triple_dec ("e1", "vA", "purchase")%string
    (conversion_count_full_stack 0 100
       (Views.mk Scenario.decisions [Scenario.purchase 12])) = 1
  /\ (forall n : string,
        count_of triple_dec ("e1", "vB", n)%string
          (conversion_count_full_stack 0 100
             (Views.mk Scenario.decisions [Scenario.purchase 12])) = 0)
  /\ count_of triple_dec ("e1", "vA", "purchase")%string
       (conversion_count_full_stack 0 100
          (Views.mk Scenario.decisions [Scenario.purchase 5])) = 0
  /\ count_of triple_dec ("e1", "vA", "purchase")%string
       (conversion_count_web 0 100
          (Views.mk Scenario.decisions [Scenario.purchase 5])) = 1
  /\ conversion_count_full_stack 0 100
       (Views.mk Scenario.decisions [Scenario.purchase 12])
     = [("e1", "vA", "purchase", 1)]%string
  /\ conversion_count_full_stack 0 100
       (Views.mk Scenario.decisions [Scenario.purchase 5]) = []
  /\ conversion_count_web 0 100
       (Views.mk Scenario.decisions [Scenario.purchase 5])
     = [("e1", "vA", "purchase", 1)]%string.
Proof.
  split; [reflexivity |].
  split; [| repeat split; reflexivity].
  intros n. apply count_of_absent.
  change (~ In ("e1", "vB", n)%string [("e1", "vA", "purchase")%string]).
  intros [H | []]. discriminate H.
Qed.

(** The only decision of s1 is a holdback, and s1 has its subject row. *)
Lemma experiment_subjects_ignores_is_holdback_witness :
  exists row,
    In row (experiment_subjects visitor_id_column (decisions 0 100 Scenario.holdback_decisions))
    /\ row_in_pair "e1" "s1" row = true
    /\ 1 <= count_of pair_dec (Subject.experiment_id row, Subject.variation_id row)
              (subject_count
                 (experiment_subjects visitor_id_column
                    (decisions 0 100 Scenario.holdback_decisions))).
Proof.
  apply (proj1 (proj2 (proj2 experiment_subjects_ignores_is_holdback))
           visitor_id_column 0%Z 100%Z Scenario.holdback_decisions
           (Decision.mk "s1" "s1" "e1" "vA" 10 true 10)).
  cbv. left. reflexivity.
Defined.

End ScenarioProofs.

(** ** Row order of the results *)

Module OrderProofs.
Import Sql SqlFacts ExperimentSubjects EnrichedEvents Storage.

Section OrderBy.
Variable A : Type.
Variable leb : A -> A -> bool.
Hypothesis leb_total : forall x y, leb x y = false -> leb y x = true.

Lemma insert_by_hdrel (x y : A) (l : list A) :
  leb y x = true ->
  HdRel (fun a b => leb a b = true) y l ->
  HdRel (fun a b => leb a b = true) y (insert_by leb x l).
Proof.
  intros Hyx Hl. destruct l as [|z l]; simpl.
  - now constructor.
  - destruct (leb x z); constructor; [assumption | now inversion Hl].
Qed.

Lemma insert_by_sorted (x : A) (l : list A) :
  Sorted (fun a b => leb a b = true) l ->
  Sorted (fun a b => leb a b = true) (insert_by leb x l).
Proof.
  induction 1 as [|y l Hs IH Hhd]; simpl.
  - repeat constructor.
  - destruct (leb x y) eqn:E.
    + constructor; [now constructor | now constructor].
    + constructor; [exact IH |]. apply insert_by_hdrel; [now apply leb_total | exact Hhd].
Qed.

Lemma order_by_sorted (l : list A) :
  Sorted (fun a b => leb a b = true) (order_by leb l).
Proof.
  induction l as [|x l IH]; simpl; [constructor | now apply insert_by_sorted].
Qed.
End OrderBy.

Lemma sorted_weaken {A : Type} (R R' : A -> A -> Prop) (l : list A) :
  (forall a b, R a b -> R' a b) -> Sorted R l -> Sorted R' l.
Proof.
  intros Himp. induction 1 as [|x l Hs IH Hhd]; constructor; [exact IH |].
  destruct Hhd; constructor. now apply Himp.
Qed.

Lemma lexicographic_antisym {A : Type} (keys : list (A -> A -> comparison)) :
  Forall (fun k => forall x y, k x y = CompOpp (k y x)) keys ->
  forall x y, lexicographic keys x y = CompOpp (lexicographic keys y x).
Proof.
  induction 1 as [|k keys Hk _ IH]; intros x y; simpl; [reflexivity |].
  rewrite (Hk x y). destruct (k y x); simpl; [apply IH | reflexivity | reflexivity].
Qed.

Lemma asc_antisym {A : Type} (col : A -> string) (x y : A) :
  asc col x y = CompOpp (asc col y x).
Proof. unfold asc. apply String.compare_antisym. Qed.

Lemma desc_antisym {A : Type} (col : A -> string) (x y : A) :
  desc col x y = CompOpp (desc col y x).
Proof. unfold desc. f_equal. apply String.compare_antisym. Qed.

Lemma leb_of_total {A : Type} (cmp : A -> A -> comparison) :
  (forall x y, cmp x y = CompOpp (cmp y x)) ->
  forall x y, leb_of cmp x y = false -> leb_of cmp y x = true.
Proof.
  intros Hanti x y. unfold leb_of. rewrite (Hanti y x).
  destruct (cmp x y); simpl; congruence.
Qed.

Lemma strongly_sorted_app {A : Type} (R : A -> A -> Prop) (l1 l2 : list A) :
  StronglySorted R (l1 ++ l2) ->
  forall a b, In a l1 -> In b l2 -> R a b.
Proof.
  induction l1 as [|x l1 IH]; simpl; [contradiction |].
  intros Hs a b [<- | Ha] Hb; inversion Hs as [|? ? Hs' Hall]; subst.
  - rewrite Forall_forall in Hall. apply Hall, in_or_app. now right.
  - now apply IH.
Qed.

Lemma experiment_subjects_strongly_sorted (subject_id : SubjectIdColumn)
    (ds : list Decision.t) :
  StronglySorted (fun a b => (Subject.timestamp a <= Subject.timestamp b)%Z)
    (experiment_subjects subject_id ds).
Proof.
  apply Sorted_StronglySorted.
  - intros a b c Hab Hbc. lia.
  - eapply sorted_weaken; [| apply order_by_sorted].
    + intros a b H. now apply Z.leb_le.
    + intros x y H. apply Z.leb_gt in H. apply Z.leb_le. lia.
Qed.

(** X1. The rows of [experiment_subjects] come in ascending order of
    timestamp: every row is not later than all the rows after it. *)
Theorem experiment_subjects_ordered_by_timestamp :
  forall (subject_id : SubjectIdColumn) (decisions_start decisions_end : Z)
         (loaded_decisions : list Decision.t),
    StronglySorted (fun a b => (Subject.timestamp a <= Subject.timestamp b)%Z)
      (experiment_subjects subject_id
         (decisions decisions_start decisions_end loaded_decisions)).
Proof. intros. apply experiment_subjects_strongly_sorted. Qed.

(** X2. The preview [SELECT * FROM experiment_subjects LIMIT 5] shows
    min(5, number of subject rows) rows, and they are the earliest ones:
    the view is the preview followed by the other rows, and no row of the
    preview is later than a row that is not shown. *)
Theorem experiment_subjects_preview_earliest :
  forall (subject_id : SubjectIdColumn) (ds : list Decision.t),
    let subjects := experiment_subjects subject_id ds in
    let shown := experiment_subjects_preview subjects in
    length shown = Nat.min 5 (length subjects)
    /\ subjects = shown ++ skipn 5 subjects
    /\ (forall a b, In a shown -> In b (skipn 5 subjects) ->
                    (Subject.timestamp a <= Subject.timestamp b)%Z).
Proof.
  intros subject_id ds subjects shown.
  assert (Hsplit : subjects = shown ++ skipn 5 subjects)
    by (symmetry; apply firstn_skipn).
  split; [apply length_firstn |]. split; [exact Hsplit |].
  apply (@strongly_sorted_app _
           (fun a b => (Subject.timestamp a <= Subject.timestamp b)%Z)
           shown (skipn 5 subjects)).
  rewrite <- Hsplit. apply experiment_subjects_strongly_sorted.
Qed.

(** Six subjects, decided at the instants 60, 10, 50, 20, 40, 30: the row
    of instant 50 is shown, the row of instant 60 is not. *)
Lemma experiment_subjects_preview_earliest_witness :
  (Subject.timestamp (Subject.mk "s3" "e1" "vA" 50)
   <= Subject.timestamp (Subject.mk "s1" "e1" "vA" 60))%Z.
Proof.
  apply (proj2 (proj2 (experiment_subjects_preview_earliest visitor_id_column
           [Scenario.decision "s1" "e1" "vA" 60; Scenario.decision "s2" "e1" "vA" 10;
            Scenario.decision "s3" "e1" "vA" 50; Scenario.decision "s4" "e1" "vA" 20;
            Scenario.decision "s5" "e1" "vA" 40; Scenario.decision "s6" "e1" "vA" 30])));
    vm_compute; tauto.
Defined.

End OrderProofs.

(** ** Grouped results: one row per group, and every row counted once *)

Module GroupProofs.
Import Sql SqlFacts ExperimentSubjects EnrichedEvents AttributionSpec.
Import SubjectsProofs VisitorProofs WebConversionProofs FullStackProofs OrderProofs.

Lemma list_sum_perm (l l' : list nat) :
  Permutation l l' -> list_sum l = list_sum l'.
Proof. induction 1; simpl; lia. Qed.

Lemma list_sum_map_add {A : Type} (f g : A -> nat) (l : list A) :
  list_sum (map (fun x => f x + g x) l) = list_sum (map f l) + list_sum (map g l).
Proof. induction l as [|x l IH]; simpl; [reflexivity | rewrite IH; lia]. Qed.

Lemma list_sum_map_zero {A : Type} (l : list A) :
  list_sum (map (fun _ => 0) l) = 0.
Proof. induction l as [|x l IH]; simpl; [reflexivity | exact IH]. Qed.

Section Groups.
Variables R K : Type.
Variable K_dec : forall x y : K, {x = y} + {x <> y}.
Variable key : R -> K.

Lemma one_group_of_row (k0 : K) (ks : list K) :
  NoDup ks -> In k0 ks ->
  list_sum (map (fun k => if K_dec k0 k then 1 else 0) ks) = 1.
Proof.
  induction 1 as [|k ks Hk Hnd IH]; [contradiction |].
  intros Hin. simpl. destruct (K_dec k0 k) as [-> | Hne].
  - rewrite (map_ext_in _ (fun _ => 0)); [now rewrite list_sum_map_zero |].
    intros k' Hk'. destruct (K_dec k k') as [-> | _]; [contradiction | reflexivity].
  - destruct Hin as [-> | Hin]; [contradiction | now apply IH].
Qed.

Lemma group_sizes_sum (ks : list K) (rows : list R) :
  NoDup ks -> incl (map key rows) ks ->
  list_sum (map (fun k => length (group K_dec key rows k)) ks) = length rows.
Proof.
  intros Hnd. induction rows as [|r rows IH]; intros Hincl.
  - apply list_sum_map_zero.
  - rewrite (map_ext _ (fun k => (if K_dec (key r) k then 1 else 0)
                                 + length (group K_dec key rows k))).
    + rewrite list_sum_map_add, IH, one_group_of_row; try assumption.
      * reflexivity.
      * apply Hincl. now left.
      * intros k Hk. apply Hincl. now right.
    + intros k. unfold group, has_key. simpl.
      destruct (K_dec (key r) k); reflexivity.
Qed.

(** [GROUP BY ... COUNT(1)] counts every row in exactly one group. *)
Lemma group_by_count_total (leb : K * nat -> K * nat -> bool) (rows : list R) :
  list_sum (map snd (order_by leb (group_by K_dec key (@count_rows R) rows)))
  = length rows.
Proof.
  rewrite (list_sum_perm (Permutation_map snd (order_by_perm leb _))).
  unfold group_by. rewrite map_map. cbn [snd]. unfold count_rows.
  apply group_sizes_sum; [apply NoDup_nodup |].
  intros k Hk. unfold group_keys. now apply nodup_In.
Qed.

Lemma ordered_group_keys (V : Type) (agg : list R -> V)
    (leb : K * V -> K * V -> bool) (rows : list R) :
  NoDup (map fst (order_by leb (group_by K_dec key agg rows))).
Proof.
  eapply Permutation_NoDup;
    [apply Permutation_sym, Permutation_map, order_by_perm |].
  rewrite group_by_keys. apply NoDup_nodup.
Qed.

(** The rows of a grouped count: one for each group that has a row, with
    the size of the group. *)
Lemma ordered_group_count_In (leb : K * nat -> K * nat -> bool) (rows : list R)
    (k : K) (n : nat) :
  In (k, n) (order_by leb (group_by K_dec key (@count_rows R) rows)) <->
  n = length (group K_dec key rows k) /\ 1 <= n.
Proof.
  split.
  - intros H. eapply Permutation_in in H; [| apply order_by_perm].
    apply group_by_In in H as [(r & Hr & Hk) ->]. split; [reflexivity |].
    unfold count_rows.
    assert (Hin : In r (group K_dec key rows k)) by (apply in_group; now split).
    destruct (group K_dec key rows k); [contradiction | simpl; lia].
  - intros [-> Hpos].
    eapply Permutation_in; [apply Permutation_sym, order_by_perm |].
    apply group_by_In. split; [| reflexivity].
    destruct (group K_dec key rows k) as [|r g] eqn:E; [simpl in Hpos; lia |].
    assert (Hin : In r (group K_dec key rows k)) by (rewrite E; now left).
    apply in_group in Hin. now exists r.
Qed.
End Groups.

Lemma subjects_group (subjects : list Subject.t) (e v : string) :
  group pair_dec (fun s => (Subject.experiment_id s, Subject.variation_id s)) subjects (e, v)
  = filter (fun row => (Subject.experiment_id row =? e)%string
                       && (Subject.variation_id row =? v)%string) subjects.
Proof.
  unfold group, has_key. apply filter_ext. intros row. apply pair_dec_eqb.
Qed.

(** X3. The [subject_count] rollup has one row for each (experiment_id,
    variation_id) that has a row in [experiment_subjects], and none for
    other pairs: its count is the number of subject rows of the pair and is
    at least 1; no pair has two rows; and the counts add up to the number
    of rows of [experiment_subjects]. *)
Theorem subject_count_rows :
  forall (subjects : list Subject.t),
    NoDup (map fst (subject_count subjects))
    /\ (forall e v n,
          In (e, v, n) (subject_count subjects) <->
          n = length (filter (fun row => (Subject.experiment_id row =? e)%string
                                         && (Subject.variation_id row =? v)%string)
                        subjects)
          /\ 1 <= n)
    /\ list_sum (map snd (subject_count subjects)) = length subjects.
Proof.
  intros subjects. unfold subject_count.
  split; [apply ordered_group_keys |].
  split; [| apply group_by_count_total].
  intros e v n. rewrite ordered_group_count_In. now rewrite subjects_group.
Qed.

Lemma by_two_ascending {A : Type} (c1 c2 : A -> string) (a b : A) :
  leb_of (lexicographic [asc c1; asc c2]) a b = true ->
  String.compare (c1 a) (c1 b) = Lt
  \/ (c1 a = c1 b /\ String.compare (c2 a) (c2 b) <> Gt).
Proof.
  unfold leb_of, lexicographic, asc.
  destruct (String.compare (c1 a) (c1 b)) eqn:E1; [| now left | discriminate].
  apply String.compare_eq_iff in E1. intros H. right. split; [exact E1 |].
  destruct (String.compare (c2 a) (c2 b)); congruence.
Qed.

Lemma two_ascending_total {A : Type} (c1 c2 : A -> string) (x y : A) :
  leb_of (lexicographic [asc c1; asc c2]) x y = false ->
  leb_of (lexicographic [asc c1; asc c2]) y x = true.
Proof.
  apply leb_of_total, lexicographic_antisym.
  repeat constructor; intros; apply asc_antisym.
Qed.

(** X4. The [subject_count] rollup is ordered by experiment_id, then
    variation_id, both ascending in the order of strings: of two consecutive
    rows, the first has the smaller experiment_id, or the same
    experiment_id and a variation_id that is not greater. *)
Theorem subject_count_ordered :
  forall (subjects : list Subject.t),
    Sorted (fun a b : string * string * nat =>
              String.compare (fst (fst a)) (fst (fst b)) = Lt
              \/ (fst (fst a) = fst (fst b)
                  /\ String.compare (snd (fst a)) (snd (fst b)) <> Gt))
      (subject_count subjects).
Proof.
  intros subjects. unfold subject_count.
  eapply sorted_weaken; [| apply order_by_sorted].
  - intros a b.
    exact (@by_two_ascending _ (fun row => fst (fst row)) (fun row => snd (fst row)) a b).
  - apply two_ascending_total.
Qed.

End GroupProofs.

(** ** The result tables of the Enriched Events queries *)

Module ResultProofs.
Import Sql SqlFacts EnrichedEvents AttributionSpec.
Import SubjectsProofs VisitorProofs WebConversionProofs FullStackProofs OrderProofs GroupProofs.

Lemma by_descending_ascending {A : Type} (c1 c2 : A -> string) (a b : A) :
  leb_of (lexicographic [desc c1; asc c2]) a b = true ->
  String.compare (c1 a) (c1 b) = Gt
  \/ (c1 a = c1 b /\ String.compare (c2 a) (c2 b) <> Gt).
Proof.
  unfold leb_of, lexicographic, asc, desc.
  destruct (String.compare (c1 a) (c1 b)) eqn:E1; simpl; [| discriminate | now left].
  apply String.compare_eq_iff in E1. intros H. right. split; [exact E1 |].
  destruct (String.compare (c2 a) (c2 b)); congruence.
Qed.

Lemma by_two_descending_ascending {A : Type} (c1 c2 c3 : A -> string) (a b : A) :
  leb_of (lexicographic [desc c1; desc c2; asc c3]) a b = true ->
  String.compare (c1 a) (c1 b) = Gt
  \/ (c1 a = c1 b
      /\ (String.compare (c2 a) (c2 b) = Gt
          \/ (c2 a = c2 b /\ String.compare (c3 a) (c3 b) <> Gt))).
Proof.
  unfold leb_of, lexicographic, asc, desc.
  destruct (String.compare (c1 a) (c1 b)) eqn:E1; simpl; [| discriminate | now left].
  apply String.compare_eq_iff in E1. right. split; [exact E1 |].
  destruct (String.compare (c2 a) (c2 b)) eqn:E2; simpl in *; [| discriminate | now left].
  apply String.compare_eq_iff in E2. right. split; [exact E2 |].
  destruct (String.compare (c3 a) (c3 b)); congruence.
Qed.

(** X5. The ordered results of the Enriched Events notebook come in the
    order their ORDER BY clauses ask for, strings compared as strings. Of
    two consecutive rows: in the Web unique-visitor result the first has the
    smaller experiment_id, or the same one and a variation_id not greater;
    in the Web conversion result the first has the greater experiment_id,
    or the same one and the greater variation_id, or both the same and an
    event_name not greater; in the Full Stack conversion result the first
    has the greater experiment_id, or the same one and a variation_id not
    greater. *)
Theorem enriched_results_ordered :
  forall (start end_ : Z) (views : Views.t),
    Sorted (fun a b : string * string * nat =>
              String.compare (fst (fst a)) (fst (fst b)) = Lt
              \/ (fst (fst a) = fst (fst b)
                  /\ String.compare (snd (fst a)) (snd (fst b)) <> Gt))
      (unique_visitors_web start end_ views)
    /\ Sorted (fun a b : string * string * string * nat =>
                 String.compare (fst (fst (fst a))) (fst (fst (fst b))) = Gt
                 \/ (fst (fst (fst a)) = fst (fst (fst b))
                     /\ (String.compare (snd (fst (fst a))) (snd (fst (fst b))) = Gt
                         \/ (snd (fst (fst a)) = snd (fst (fst b))
                             /\ String.compare (snd (fst a)) (snd (fst b)) <> Gt))))
         (conversion_count_web start end_ views)
    /\ Sorted (fun a b : string * string * string * nat =>
                 String.compare (fst (fst (fst a))) (fst (fst (fst b))) = Gt
                 \/ (fst (fst (fst a)) = fst (fst (fst b))
                     /\ String.compare (snd (fst (fst a))) (snd (fst (fst b))) <> Gt))
         (conversion_count_full_stack start end_ views).
Proof.
  intros start end_ views. split; [| split].
  - unfold unique_visitors_web, by_experiment_variation.
    eapply sorted_weaken; [| apply order_by_sorted].
    + intros a b.
      exact (@by_two_ascending _ (fun row => fst (fst row)) (fun row => snd (fst row)) a b).
    + apply two_ascending_total.
  - unfold conversion_count_web.
    eapply sorted_weaken; [| apply order_by_sorted].
    + intros a b.
      exact (@by_two_descending_ascending _ (fun row => fst (fst (fst row)))
               (fun row => snd (fst (fst row))) (fun row => snd (fst row)) a b).
    + apply leb_of_total, lexicographic_antisym.
      repeat constructor; intros; first [apply asc_antisym | apply desc_antisym].
  - unfold conversion_count_full_stack.
    eapply sorted_weaken; [| apply order_by_sorted].
    + intros a b.
      exact (@by_descending_ascending _ (fun row => fst (fst (fst row)))
               (fun row => snd (fst (fst row))) a b).
    + apply leb_of_total, lexicographic_antisym.
      repeat constructor; intros; first [apply asc_antisym | apply desc_antisym].
Qed.

Lemma exploded_events_length (start end_ : Z) (views : Views.t) :
  length (exploded_events start end_ views)
  = list_sum (map (fun ev => length (Event.experiments ev))
                (window_filter Event.timestamp start end_ (Views.events views))).
Proof.
  unfold exploded_events, lateral_view_explode, window_filter.
  induction (Views.events views) as [|ev l IH]; [reflexivity |].
  cbn [flat_map filter]. rewrite filter_app, length_app, IH, filter_map_swap, length_map.
  cbn [fst]. destruct (between (Event.timestamp ev) start end_).
  - now rewrite filter_true.
  - now rewrite filter_false.
Qed.

(** X6. The Web conversion result has one row for each (experiment_id,
    variation_id, event_name) to which an in-window event is attributed
    and no row for other triples: its count is the number of entries equal
    to the pair in the [experiments] lists of the in-window occurrences of
    the event, and is at least 1; no triple has two rows; and the counts
    add up to the total length of the [experiments] lists of the in-window
    events. *)
Theorem conversion_count_web_rows :
  forall (start end_ : Z) (views : Views.t),
    NoDup (map fst (conversion_count_web start end_ views))
    /\ (forall e v n c,
          In (e, v, n, c) (conversion_count_web start end_ views) <->
          c = list_sum (map (listed_times e v)
                          (filter (occurrence_of start end_ n) (Views.events views)))
          /\ 1 <= c)
    /\ list_sum (map snd (conversion_count_web start end_ views))
       = list_sum (map (fun ev => length (Event.experiments ev))
                     (window_filter Event.timestamp start end_ (Views.events views))).
Proof.
  intros start end_ views. unfold conversion_count_web.
  split; [apply ordered_group_keys |]. split.
  - intros e v n c. rewrite ordered_group_count_In. now rewrite exploded_group_length.
  - rewrite group_by_count_total. apply exploded_events_length.
Qed.

Lemma attributed_group_length (start end_ : Z) (views : Views.t) (e v n : string) :
  length (group triple_dec (fun row : string * string * string * string => fst row)
            (attributed_events start end_ views) (e, v, n))
  = length (filter (fun ev => occurrence_of start end_ n ev
                              && exposed_before start end_ (Views.decisions views) e v ev)
              (Views.events views)).
Proof.
  rewrite <- conversion_count_full_stack_count.
  unfold conversion_count_full_stack. now rewrite count_of_group_by by reflexivity.
Qed.

Lemma filter_length_andb_le {A : Type} (p q : A -> bool) (l : list A) :
  length (filter (fun x => p x && q x) l) <= length (filter p l).
Proof.
  induction l as [|x l IH]; simpl; [lia |].
  destruct (p x), (q x); simpl; lia.
Qed.

(** X7. The Full Stack conversion result has one row for each
    (experiment_id, variation_id, event_name) with an attributed event and
    no row for other triples: its count is the number of in-window
    occurrences of the event whose subject has an in-window non-holdback
    decision for the pair not later than the event, and is at least 1; no
    triple has two rows; and no count exceeds the number of in-window
    occurrences of the event, so an occurrence is never counted twice for
    one pair. *)
Theorem conversion_count_full_stack_rows :
  forall (start end_ : Z) (views : Views.t),
    NoDup (map fst (conversion_count_full_stack start end_ views))
    /\ (forall e v n c,
          In (e, v, n, c) (conversion_count_full_stack start end_ views) <->
          c = length (filter (fun ev => occurrence_of start end_ n ev
                                        && exposed_before start end_ (Views.decisions views) e v ev)
                        (Views.events views))
          /\ 1 <= c)
    /\ (forall e v n,
          count_of triple_dec (e, v, n) (conversion_count_full_stack start end_ views)
          <= length (filter (occurrence_of start end_ n) (Views.events views))).
Proof.
  intros start end_ views.
  split; [apply ordered_group_keys |]. split.
  - intros e v n c. unfold conversion_count_full_stack.
    rewrite ordered_group_count_In. now rewrite attributed_group_length.
  - intros e v n. rewrite conversion_count_full_stack_count.
    apply filter_length_andb_le.
Qed.

End ResultProofs.

(** ** Web unique visitors *)

Module WebVisitorProofs.
Import Sql SqlFacts EnrichedEvents AttributionSpec.
Import SubjectsProofs VisitorProofs WebConversionProofs FullStackProofs.

Lemma is_attribution_spec (e v : string) (a : Attribution.t) :
  is_attribution e v a = true <->
  Attribution.experiment_id a = e /\ Attribution.variation_id a = v.
Proof. unfold is_attribution. now rewrite andb_true_iff, !String.eqb_eq. Qed.

Lemma exposure_of_spec (start end_ : Z) (e v : string) (d : Decision.t) :
  exposure_of start end_ e v d = true <->
  (start <= Decision.timestamp d <= end_)%Z
  /\ Decision.is_holdback d = false
  /\ Decision.experiment_id d = e
  /\ Decision.variation_id d = v.
Proof.
  unfold exposure_of.
  rewrite !andb_true_iff, between_spec, negb_true_iff, !String.eqb_eq. tauto.
Qed.

(** The triples of the event side of the UNION. *)
Lemma exploded_triple_In (start end_ : Z) (views : Views.t) (e v s : string) :
  In (e, v, s)
     (map (fun p => (Attribution.experiment_id (snd p), Attribution.variation_id (snd p),
                     Event.visitor_id (fst p)))
        (exploded_events start end_ views)) <->
  exists ev, In ev (Views.events views)
             /\ (start <= Event.timestamp ev <= end_)%Z
             /\ lists e v ev = true
             /\ Event.visitor_id ev = s.
Proof.
  unfold exploded_events, lateral_view_explode, lists.
  rewrite in_map_iff. split.
  - intros ([ev a] & Heq & Hin). cbn [fst snd] in Heq. injection Heq as He Hv Hs.
    apply filter_In in Hin as [Hin Hb]. cbn [fst] in Hb.
    apply in_flat_map in Hin as (ev' & Hev & Ha).
    apply in_map_iff in Ha as (a' & [= -> ->] & Ha).
    exists ev. split; [assumption |]. split; [now apply between_spec |].
    split; [| assumption].
    apply existsb_exists. exists a. split; [assumption |]. now apply is_attribution_spec.
  - intros (ev & Hev & Hb & Hl & Hs).
    apply existsb_exists in Hl as (a & Ha & Hq). apply is_attribution_spec in Hq as [He Hv].
    exists (ev, a). cbn [fst snd]. split; [congruence |].
    apply filter_In. split; [| now apply between_spec].
    apply in_flat_map. exists ev. split; [assumption |].
    now apply (in_map (fun x => (ev, x))).
Qed.

(** The triples of the decision side of the UNION. *)
Lemma exposure_triple_In (start end_ : Z) (views : Views.t) (e v s : string) :
  In (e, v, s)
     (map (fun d => (Decision.experiment_id d, Decision.variation_id d,
                     Decision.visitor_id d))
        (exposures start end_ views)) <->
  exists d, In d (Views.decisions views)
            /\ exposure_of start end_ e v d = true
            /\ Decision.visitor_id d = s.
Proof.
  rewrite in_map_iff. split.
  - intros (d & [= He Hv Hs] & Hd).
    assert (Hg : In d (group pair_dec
                         (fun d => (Decision.experiment_id d, Decision.variation_id d))
                         (exposures start end_ views) (e, v)))
      by (apply in_group; split; [assumption | congruence]).
    rewrite exposures_group in Hg. apply filter_In in Hg as [Hin Hq]. now exists d.
  - intros (d & Hd & Hq & Hs).
    assert (Hg : In d (filter (exposure_of start end_ e v) (Views.decisions views)))
      by (apply filter_In; now split).
    rewrite <- exposures_group in Hg. apply in_group in Hg as [Hin [= He Hv]].
    exists d. split; [congruence | assumption].
Qed.

(** X8. For every input and every (experiment_id, variation_id), the Web
    unique-visitor count is the number of distinct visitor ids that have an
    event with timestamp in [start, end] whose [experiments] list contains
    the pair, or a decision for the pair with timestamp in [start, end] and
    is_holdback = false: it is the length of a duplicate-free list of
    exactly these visitor ids. *)
Theorem unique_visitors_web_distinct_subjects :
  forall (start end_ : Z) (views : Views.t) (e v : string),
    exists subjects : list string,
      NoDup subjects
      /\ (forall s, In s subjects <->
            (exists ev, In ev (Views.events views)
                        /\ (start <= Event.timestamp ev <= end_)%Z
                        /\ lists e v ev = true
                        /\ Event.visitor_id ev = s)
            \/ (exists d, In d (Views.decisions views)
                          /\ exposure_of start end_ e v d = true
                          /\ Decision.visitor_id d = s))
      /\ count_of pair_dec (e, v) (unique_visitors_web start end_ views)
         = length subjects.
Proof.
  intros start end_ views e v.
  exists (nodup string_dec
            (map (fun row : string * string * string => snd row)
               (group pair_dec (fun row : string * string * string => fst row)
                  (web_visitors start end_ views) (e, v)))).
  split; [apply NoDup_nodup |]. split.
  - intros s. rewrite nodup_In, in_map_iff.
    rewrite <- exploded_triple_In, <- exposure_triple_In, <- web_visitors_In. split.
    + intros ([[e' v'] s'] & Hs & Hg). cbn [snd] in Hs. subst s'.
      apply in_group in Hg as [Hin Hk]. cbn [fst] in Hk. now injection Hk as -> ->.
    + intros Hin. exists (e, v, s). split; [reflexivity |].
      apply in_group. now split.
  - unfold unique_visitors_web. now rewrite count_of_group_by by reflexivity.
Qed.

End WebVisitorProofs.

(** ** Row order of the inputs, more data, and empty inputs *)

Module InputProofs.
Import Sql SqlFacts ExperimentSubjects EnrichedEvents AttributionSpec SubjectsSpec.
Import SubjectsProofs VisitorProofs WebConversionProofs FullStackProofs.
Import GroupProofs WebVisitorProofs.

Lemma rank_perm {A : Type} (same : A -> A -> bool) (ts : A -> Z) (l l' : list A) (r : A) :
  Permutation l l' -> rank same ts l r = rank same ts l' r.
Proof.
  intros H. unfold rank. f_equal. apply Permutation_length. now apply filter_perm.
Qed.

Lemma first_decisions_perm (subject_id : SubjectIdColumn) (ds ds' : list Decision.t) :
  Permutation ds ds' ->
  Permutation (first_decisions subject_id ds) (first_decisions subject_id ds').
Proof.
  intros H. unfold first_decisions.
  rewrite (filter_ext _
             (fun d => rank (same_partition subject_id) Decision.timestamp ds' d =? 1))
    by (intros d; now rewrite (rank_perm _ _ d H)).
  now apply filter_perm.
Qed.

Lemma experiment_subjects_perm_input (subject_id : SubjectIdColumn)
    (ds ds' : list Decision.t) :
  Permutation ds ds' ->
  Permutation (experiment_subjects subject_id ds) (experiment_subjects subject_id ds').
Proof.
  intros H.
  eapply perm_trans; [apply experiment_subjects_perm |].
  eapply perm_trans; [| apply Permutation_sym, experiment_subjects_perm].
  now apply Permutation_map, first_decisions_perm.
Qed.

(** X9. The subjects table does not depend on the order of the rows of the
    loaded decisions: two loaded tables with the same rows in another order
    give the same bag of [experiment_subjects] rows (each in ascending
    order of timestamp) and the same [subject_count] for every
    (experiment_id, variation_id). *)
Theorem experiment_subjects_input_order :
  forall (subject_id : SubjectIdColumn) (decisions_start decisions_end : Z)
         (loaded loaded' : list Decision.t),
    Permutation loaded loaded' ->
    let subjects :=
      experiment_subjects subject_id (decisions decisions_start decisions_end loaded) in
    let subjects' :=
      experiment_subjects subject_id (decisions decisions_start decisions_end loaded') in
    Permutation subjects subjects'
    /\ (forall e v, count_of pair_dec (e, v) (subject_count subjects)
                    = count_of pair_dec (e, v) (subject_count subjects')).
Proof.
  intros subject_id ws we loaded loaded' H subjects subjects'.
  assert (Hp : Permutation subjects subjects').
  { apply experiment_subjects_perm_input. unfold decisions, window_filter.
    now apply filter_perm. }
  split; [exact Hp |].
  intros e v. unfold subject_count. rewrite !count_of_group_by by reflexivity.
  unfold count_rows, group. apply Permutation_length. now apply filter_perm.
Qed.

(** The scenario decisions, in reverse order. *)
Lemma experiment_subjects_input_order_witness :
  Permutation
    (experiment_subjects visitor_id_column (decisions 0 100 Scenario.decisions))
    (experiment_subjects visitor_id_column (decisions 0 100 (rev Scenario.decisions))).
Proof.
  apply (@experiment_subjects_input_order visitor_id_column 0 100
           Scenario.decisions (rev Scenario.decisions)).
  apply Permutation_rev.
Defined.

Lemma nodup_length_same_elements {A : Type} (A_dec : forall x y : A, {x = y} + {x <> y})
    (l l' : list A) :
  (forall x, In x l <-> In x l') ->
  length (nodup A_dec l) = length (nodup A_dec l').
Proof.
  intros H. apply Permutation_length.
  apply NoDup_Permutation; try apply NoDup_nodup.
  intros x. rewrite !nodup_In. apply H.
Qed.

Lemma existsb_same_elements {A : Type} (p : A -> bool) (l l' : list A) :
  (forall x, In x l -> In x l') -> existsb p l = true -> existsb p l' = true.
Proof.
  intros H Hl. apply existsb_exists in Hl as (x & Hx & Hp).
  apply existsb_exists. exists x. split; [now apply H | exact Hp].
Qed.

Lemma filter_length_impl {A : Type} (p q : A -> bool) (l : list A) :
  (forall x, In x l -> p x = true -> q x = true) ->
  length (filter p l) <= length (filter q l).
Proof.
  induction l as [|x l IH]; intros H; simpl; [lia |].
  assert (IH' : length (filter p l) <= length (filter q l))
    by (apply IH; intros y Hy; apply H; now right).
  destruct (p x) eqn:Ep.
  - rewrite (H x (or_introl eq_refl) Ep). simpl. lia.
  - destruct (q x); simpl; lia.
Qed.

Lemma web_visitor_group_In (start end_ : Z) (views : Views.t) (e v s : string) :
  In s (map (fun row : string * string * string => snd row)
          (group pair_dec (fun row : string * string * string => fst row)
             (web_visitors start end_ views) (e, v))) <->
  (exists ev, In ev (Views.events views)
              /\ (start <= Event.timestamp ev <= end_)%Z
              /\ lists e v ev = true
              /\ Event.visitor_id ev = s)
  \/ (exists d, In d (Views.decisions views)
                /\ exposure_of start end_ e v d = true
                /\ Decision.visitor_id d = s).
Proof.
  rewrite in_map_iff.
  rewrite <- exploded_triple_In, <- exposure_triple_In, <- web_visitors_In. split.
  - intros ([[e' v'] s'] & Hs & Hg). cbn [snd] in Hs. subst s'.
    apply in_group in Hg as [Hin Hk]. cbn [fst] in Hk. now injection Hk as -> ->.
  - intros Hin. exists (e, v, s). split; [reflexivity |].
    apply in_group. now split.
Qed.

(** X10. The counts of the Enriched Events queries do not depend on the
    order of the rows of the [decisions] and [events] tables: two inputs
    with the same rows in another order give, for every group, the same
    Web and Full Stack unique-visitor counts and the same Web and Full
    Stack conversion counts. *)
Theorem enriched_counts_input_order :
  forall (start end_ : Z) (views views' : Views.t),
    Permutation (Views.decisions views) (Views.decisions views') ->
    Permutation (Views.events views) (Views.events views') ->
    (forall e v,
        count_of pair_dec (e, v) (unique_visitors_web start end_ views)
        = count_of pair_dec (e, v) (unique_visitors_web start end_ views'))
    /\ (forall e v,
          count_of pair_dec (e, v) (unique_visitors_full_stack start end_ views)
          = count_of pair_dec (e, v) (unique_visitors_full_stack start end_ views'))
    /\ (forall e v n,
          count_of triple_dec (e, v, n) (conversion_count_web start end_ views)
          = count_of triple_dec (e, v, n) (conversion_count_web start end_ views'))
    /\ (forall e v n,
          count_of triple_dec (e, v, n) (conversion_count_full_stack start end_ views)
          = count_of triple_dec (e, v, n) (conversion_count_full_stack start end_ views')).
Proof.
  intros start end_ views views' Hd He.
  assert (Hdin : forall d, In d (Views.decisions views) <-> In d (Views.decisions views'))
    by (intros d; split; apply Permutation_in; [| apply Permutation_sym]; assumption).
  assert (Hein : forall ev, In ev (Views.events views) <-> In ev (Views.events views'))
    by (intros ev; split; apply Permutation_in; [| apply Permutation_sym]; assumption).
  split; [| split; [| split]].
  - intros e v. unfold unique_visitors_web. rewrite !count_of_group_by by reflexivity.
    unfold count_distinct. apply nodup_length_same_elements. intros s.
    rewrite !web_visitor_group_In.
    split; (intros [(ev & Hev & H) | (d & Hd' & H)];
            [left; exists ev; split; [now apply Hein | exact H]
            | right; exists d; split; [now apply Hdin | exact H]]).
  - intros e v. rewrite !unique_visitors_full_stack_count.
    apply Permutation_length.
    apply NoDup_Permutation; try apply NoDup_nodup.
    intros s. rewrite !nodup_In. split; apply Permutation_in;
      [| apply Permutation_sym]; now apply Permutation_map, filter_perm.
  - intros e v n. rewrite !conversion_count_web_count.
    apply list_sum_perm, Permutation_map. now apply filter_perm.
  - intros e v n. rewrite !conversion_count_full_stack_count.
    rewrite (filter_ext _
               (fun ev => occurrence_of start end_ n ev
                          && exposed_before start end_ (Views.decisions views') e v ev)).
    + apply Permutation_length. now apply filter_perm.
    + intros ev. f_equal. unfold exposed_before. apply eq_true_iff_eq.
      split; apply existsb_same_elements; intros d; apply Hdin.
Qed.

(** The scenario with its decisions in reverse order. *)
Lemma enriched_counts_input_order_witness :
  count_of triple_dec ("e1", "vA", "purchase")%string
    (conversion_count_full_stack 0 100 (Views.mk Scenario.decisions [Scenario.purchase 12]))
  = count_of triple_dec ("e1", "vA", "purchase")%string
      (conversion_count_full_stack 0 100
         (Views.mk (rev Scenario.decisions) [Scenario.purchase 12])).
Proof.
  apply (@enriched_counts_input_order 0 100
           (Views.mk Scenario.decisions [Scenario.purchase 12])
           (Views.mk (rev Scenario.decisions) [Scenario.purchase 12])).
  - apply Permutation_rev.
  - apply Permutation_refl.
Defined.

End InputProofs.

(** ** More data, empty windows and empty inputs *)

Module EdgeProofs.
Import Sql SqlFacts ExperimentSubjects EnrichedEvents AttributionSpec SubjectsSpec.
Import SubjectsProofs VisitorProofs WebConversionProofs FullStackProofs.
Import GroupProofs WebVisitorProofs InputProofs.

(** X11. Loading more data never lowers a Full Stack count: when every
    decision of an input is also in a second input whose events are those
    of the first followed by further ones, every Full Stack conversion
    count and every Full Stack unique-visitor count of the second input is
    at least that of the first. *)
Theorem full_stack_counts_monotone :
  forall (start end_ : Z) (views : Views.t) (more_decisions : list Decision.t)
         (more_events : list Event.t),
    incl (Views.decisions views) more_decisions ->
    let views' := Views.mk more_decisions (Views.events views ++ more_events) in
    (forall e v n,
        count_of triple_dec (e, v, n) (conversion_count_full_stack start end_ views)
        <= count_of triple_dec (e, v, n) (conversion_count_full_stack start end_ views'))
    /\ (forall e v,
          count_of pair_dec (e, v) (unique_visitors_full_stack start end_ views)
          <= count_of pair_dec (e, v) (unique_visitors_full_stack start end_ views')).
Proof.
  intros start end_ views more_decisions more_events Hincl views'. split.
  - intros e v n. rewrite !conversion_count_full_stack_count.
    unfold views'. cbn [Views.events Views.decisions].
    rewrite filter_app, length_app.
    etransitivity; [| apply Nat.le_add_r].
    apply filter_length_impl. intros ev _ H.
    apply andb_true_iff in H as [Ho Hx]. rewrite Ho. cbn [andb].
    unfold exposed_before in *. eapply existsb_same_elements; [| exact Hx].
    exact Hincl.
  - intros e v. rewrite !unique_visitors_full_stack_count.
    apply NoDup_incl_length; [apply NoDup_nodup |].
    intros s Hs. apply nodup_In in Hs. apply nodup_In.
    apply in_map_iff in Hs as (d & Hs & Hd). apply filter_In in Hd as [Hd Hq].
    apply in_map_iff. exists d. split; [exact Hs |].
    apply filter_In. split; [now apply Hincl | exact Hq].
Qed.

(** One more decision (an earlier exposure of s1 to (e1, vA)) and one more
    purchase. *)
Lemma full_stack_counts_monotone_witness :
  count_of triple_dec ("e1", "vA", "purchase")%string
    (conversion_count_full_stack 0 100 (Views.mk Scenario.decisions [Scenario.purchase 5]))
  <= count_of triple_dec ("e1", "vA", "purchase")%string
       (conversion_count_full_stack 0 100
          (Views.mk (Scenario.decision "s1" "e1" "vA" 3 :: Scenario.decisions)
             ([Scenario.purchase 5] ++ [Scenario.purchase 12]))).
Proof.
  apply (@full_stack_counts_monotone 0 100
           (Views.mk Scenario.decisions [Scenario.purchase 5])
           (Scenario.decision "s1" "e1" "vA" 3 :: Scenario.decisions)
           [Scenario.purchase 12]).
  intros d Hd. now right.
Defined.

Lemma between_empty_window (t start end_ : Z) :
  (end_ < start)%Z -> between t start end_ = false.
Proof.
  intros H. apply not_true_is_false. rewrite between_spec. lia.
Qed.

Lemma inner_join_nil_r {A B : Type} (on : A -> B -> bool) (l : list A) :
  inner_join on l (@nil B) = [].
Proof.
  rewrite inner_join_flat_map. induction l as [|a l IH]; [reflexivity | exact IH].
Qed.

Lemma no_exposures_empty (start end_ : Z) (views : Views.t) :
  exposures start end_ views = [] ->
  conversion_count_full_stack start end_ views = []
  /\ unique_visitors_full_stack start end_ views = [].
Proof.
  intros H. split.
  - unfold conversion_count_full_stack, attributed_events, joined_events,
      decision_timestamps.
    rewrite H. cbn [group_by group_keys map nodup]. now rewrite inner_join_nil_r.
  - unfold unique_visitors_full_stack. now rewrite H.
Qed.

(** X12. With an empty analysis window (end before start) every query of
    the Enriched Events notebook returns no row, and so does
    [experiment_subjects], whatever the tables hold. *)
Theorem empty_window_results :
  forall (start end_ : Z) (views : Views.t) (subject_id : SubjectIdColumn)
         (loaded_decisions : list Decision.t),
    (end_ < start)%Z ->
    unique_visitors_web start end_ views = []
    /\ unique_visitors_full_stack start end_ views = []
    /\ conversion_count_web start end_ views = []
    /\ conversion_count_full_stack start end_ views = []
    /\ experiment_subjects subject_id (decisions start end_ loaded_decisions) = [].
Proof.
  intros start end_ views subject_id loaded_decisions Hw.
  assert (Hx : exposures start end_ views = []).
  { unfold exposures. rewrite (filter_ext _ (fun _ => false)); [apply filter_false |].
    intros d. now rewrite between_empty_window. }
  assert (He : exploded_events start end_ views = []).
  { unfold exploded_events. rewrite (filter_ext _ (fun _ => false)); [apply filter_false |].
    intros p. now apply between_empty_window. }
  split; [| split; [| split; [| split]]].
  - unfold unique_visitors_web, web_visitors. now rewrite Hx, He.
  - now apply no_exposures_empty.
  - unfold conversion_count_web. now rewrite He.
  - now apply no_exposures_empty.
  - unfold decisions, window_filter.
    rewrite (filter_ext _ (fun _ => false)); [now rewrite filter_false |].
    intros d. now apply between_empty_window.
Qed.

(** The scenario with the window [100, 0]. *)
Lemma empty_window_results_witness :
  conversion_count_web 100 0 (Views.mk Scenario.decisions [Scenario.purchase 12]) = [].
Proof.
  apply (@empty_window_results 100 0
           (Views.mk Scenario.decisions [Scenario.purchase 12]) visitor_id_column
           Scenario.decisions).
  lia.
Defined.

(** X13. When no decision is an in-window non-holdback decision (the
    decisions table is empty, or every in-window decision is a holdback),
    the Full Stack conversion query and the Full Stack unique-visitor query
    return no row, whatever the events and their enrichment. *)
Theorem full_stack_needs_exposure :
  forall (start end_ : Z) (views : Views.t),
    (forall d, In d (Views.decisions views) ->
               (start <= Decision.timestamp d <= end_)%Z ->
               Decision.is_holdback d = true) ->
    conversion_count_full_stack start end_ views = []
    /\ unique_visitors_full_stack start end_ views = [].
Proof.
  intros start end_ views H. apply no_exposures_empty.
  unfold exposures. rewrite (filter_ext_in _ (fun _ => false)); [apply filter_false |].
  intros d Hd. destruct (between (Decision.timestamp d) start end_) eqn:Hb; [| reflexivity].
  apply between_spec in Hb. now rewrite (H d Hd Hb).
Qed.

(** A purchase attributed by its enrichment, and only a holdback decision. *)
Lemma full_stack_needs_exposure_witness :
  conversion_count_full_stack 0 100
    (Views.mk Scenario.holdback_decisions [Scenario.purchase 12]) = []
  /\ unique_visitors_full_stack 0 100
       (Views.mk Scenario.holdback_decisions [Scenario.purchase 12]) = [].
Proof.
  apply (@full_stack_needs_exposure 0 100
           (Views.mk Scenario.holdback_decisions [Scenario.purchase 12])).
  intros d [<- | []] _. reflexivity.
Defined.

(** X14. Two window filters on the same column compose to the filter of
    the intersection of the windows, in either order; so the window of the
    [decisions] view and the window of a later query restrict the rows to
    the instants both allow. A window that ends before it starts keeps no
    row. *)
Theorem window_filter_compose :
  forall (R : Type) (timestamp_field : R -> Z) (s1 e1 s2 e2 : Z) (rows : list R),
    window_filter timestamp_field s1 e1 (window_filter timestamp_field s2 e2 rows)
    = window_filter timestamp_field (Z.max s1 s2) (Z.min e1 e2) rows
    /\ window_filter timestamp_field s1 e1 (window_filter timestamp_field s2 e2 rows)
       = window_filter timestamp_field s2 e2 (window_filter timestamp_field s1 e1 rows)
    /\ ((e1 < s1)%Z -> window_filter timestamp_field s1 e1 rows = []).
Proof.
  intros R f s1 e1 s2 e2 rows.
  assert (Hc : forall a b c d,
             window_filter f a b (window_filter f c d rows)
             = window_filter f (Z.max a c) (Z.min b d) rows).
  { intros a b c d. unfold window_filter. rewrite filter_filter.
    apply filter_ext. intros r. apply eq_true_iff_eq.
    rewrite andb_true_iff, !between_spec. lia. }
  split; [apply Hc |]. split.
  - rewrite !Hc. now rewrite Z.max_comm, Z.min_comm.
  - intros Hw. unfold window_filter.
    rewrite (filter_ext _ (fun _ => false)); [apply filter_false |].
    intros r. now apply between_empty_window.
Qed.

(** The windows [10, 30] and [20, 40] leave [20, 30]; [30, 10] keeps
    nothing. *)
Lemma window_filter_compose_witness :
  window_filter (fun t : Z => t) 10 30
    (window_filter (fun t : Z => t) 20 40 [5; 10; 20; 25; 30; 35; 40]%Z) = [20; 25; 30]%Z
  /\ window_filter (fun t : Z => t) 30 10 [5; 10; 20; 25; 30; 35; 40]%Z = [].
Proof.
  destruct (window_filter_compose (fun t : Z => t) 10 30 20 40
              [5; 10; 20; 25; 30; 35; 40]%Z) as (Hc & _ & _).
  destruct (window_filter_compose (fun t : Z => t) 30 10 20 40
              [5; 10; 20; 25; 30; 35; 40]%Z) as (_ & _ & He).
  split; [rewrite Hc; reflexivity | apply He; lia].
Defined.

End EdgeProofs.

(** ** Data locations and the subjects sink *)

Module StorageProofs.
Import Sql SqlFacts ExperimentSubjects SubjectsSpec Storage.
Import SubjectsProofs FullStackProofs GroupProofs.

Lemma append_inj_l (p a b : string) : (p ++ a)%string = (p ++ b)%string -> a = b.
Proof.
  induction p as [|c p IH]; simpl; [trivial |].
  intros [= H]. now apply IH.
Qed.

Lemma path_join_relative (a b : string) :
  startswith_sep b = false -> path_join a b = (a ++ separator_after a ++ b)%string.
Proof.
  intros H. unfold path_join, separator_after. rewrite H.
  destruct ((a =? "")%string || endswith_sep a); reflexivity.
Qed.

(** X15. Whatever OPTIMIZELY_DATA_DIR is set to (or not set), the three data
    directories lie under the base data directory and are pairwise
    different, so the 'overwrite' write to the subjects directory never
    targets the decisions or the events directory; with the variable unset
    they are ./example_data/type=decisions, ./example_data/type=events and
    ./example_data/type=subjects. *)
Theorem data_directories_distinct :
  forall environ : string -> option string,
    (exists sep, decisions_dir environ = (base_data_dir environ ++ sep ++ "type=decisions")%string
                 /\ events_dir environ = (base_data_dir environ ++ sep ++ "type=events")%string
                 /\ subjects_output_dir environ
                    = (base_data_dir environ ++ sep ++ "type=subjects")%string)
    /\ subjects_output_dir environ <> decisions_dir environ
    /\ subjects_output_dir environ <> events_dir environ
    /\ decisions_dir environ <> events_dir environ
    /\ (environ "OPTIMIZELY_DATA_DIR"%string = None ->
        decisions_dir environ = "./example_data/type=decisions"%string
        /\ events_dir environ = "./example_data/type=events"%string
        /\ subjects_output_dir environ = "./example_data/type=subjects"%string).
Proof.
  intros environ. unfold decisions_dir, events_dir, subjects_output_dir.
  rewrite !path_join_relative by reflexivity.
  split; [exists (separator_after (base_data_dir environ)); auto |].
  repeat split.
  - intros H. apply append_inj_l, append_inj_l in H. discriminate H.
  - intros H. apply append_inj_l, append_inj_l in H. discriminate H.
  - intros H. apply append_inj_l, append_inj_l in H. discriminate H.
  - unfold base_data_dir, environ_get. now rewrite H.
  - unfold base_data_dir, environ_get. now rewrite H.
  - unfold base_data_dir, environ_get. now rewrite H.
Qed.

(** An environment without OPTIMIZELY_DATA_DIR. *)
Lemma data_directories_distinct_witness :
  decisions_dir (fun _ => None) = "./example_data/type=decisions"%string
  /\ events_dir (fun _ => None) = "./example_data/type=events"%string
  /\ subjects_output_dir (fun _ => None) = "./example_data/type=subjects"%string.
Proof.
  apply (data_directories_distinct (fun _ => None)). reflexivity.
Defined.




End StorageProofs.

(** ** The subjects table and its decisions *)

Module SubjectTableProofs.
Import Sql SqlFacts ExperimentSubjects SubjectsSpec.
Import SubjectsProofs HoldbackProofs.

Lemma filter_at_most_one {A : Type} (P : A -> A -> Prop) (q : A -> bool) (l : list A) :
  ForallOrdPairs P l ->
  (forall x y, q x = true -> q y = true -> ~ P x y) ->
  length (filter q l) <= 1.
Proof.
  intros Hl Hq. induction Hl as [|a l Ha _ IH]; simpl; [lia |].
  destruct (q a) eqn:Ea; [| exact IH].
  rewrite (filter_ext_in _ (fun _ => false)); [now rewrite filter_false |].
  intros y Hy. apply not_true_is_false. intros Ey.
  rewrite Forall_forall in Ha. exact (Hq a y Ea Ey (Ha y Hy)).
Qed.

(** X17. When no two decisions of the filtered table of the same
    (experiment_id, subject) have the same timestamp, [experiment_subjects]
    has exactly one row for every pair that has a decision in the filtered
    table. *)
Theorem experiment_subjects_one_row_without_ties :
  forall (subject_id : SubjectIdColumn) (decisions_start decisions_end : Z)
         (loaded_decisions : list Decision.t),
    let ds := decisions decisions_start decisions_end loaded_decisions in
    ForallOrdPairs
      (fun d d' => same_partition subject_id d d' = true ->
                   Decision.timestamp d <> Decision.timestamp d') ds ->
    forall d, In d ds ->
      length (filter (row_in_pair (Decision.experiment_id d) (subject_of subject_id d))
                (experiment_subjects subject_id ds)) = 1.
Proof.
  intros subject_id ws we loaded ds Hties d Hd.
  destruct (minimum_timestamp_exists subject_id _ _ Hd) as [m Hm].
  rewrite (rows_of_pair_count Hm).
  apply Nat.le_antisymm.
  - eapply filter_at_most_one; [exact Hties |].
    intros x y Hx Hy HP.
    apply andb_true_iff in Hx as [Hpx Htx]. apply andb_true_iff in Hy as [Hpy Hty].
    apply Z.eqb_eq in Htx, Hty. apply in_pair_spec in Hpx as [Hex Hsx].
    apply in_pair_spec in Hpy as [Hey Hsy].
    apply HP; [| congruence].
    apply same_partition_spec. split; congruence.
  - destruct Hm as [(d0 & Hd0 & Hp0 & Ht0) _].
    assert (Hin : In d0 (filter (fun d' => in_pair subject_id (Decision.experiment_id d)
                                             (subject_of subject_id d) d'
                                           && (Decision.timestamp d' =? m)%Z) ds)).
    { apply filter_In. split; [assumption |]. rewrite Hp0. simpl. now apply Z.eqb_eq. }
    destruct (filter _ ds); [contradiction | simpl; lia].
Qed.

(** In the scenario the two decisions of (e1, s1) are at 10 and 20. *)
Lemma experiment_subjects_one_row_without_ties_witness :
  length (filter (row_in_pair "e1" "s1")
            (experiment_subjects visitor_id_column (decisions 0 100 Scenario.decisions))) = 1.
Proof.
  apply (@experiment_subjects_one_row_without_ties visitor_id_column 0 100
           Scenario.decisions) with (d := Scenario.decision "s1" "e1" "vB" 20).
  - repeat constructor; simpl; intros; discriminate.
  - vm_compute. tauto.
Defined.

(** X18. Every row of [experiment_subjects] is the projection of a loaded
    decision whose timestamp lies in the analysis window, so the timestamp
    of the row lies in the window; and the table has at most as many rows
    as there are decisions in the window. *)
Theorem experiment_subjects_from_window :
  forall (subject_id : SubjectIdColumn) (decisions_start decisions_end : Z)
         (loaded_decisions : list Decision.t),
    let subjects :=
      experiment_subjects subject_id
        (decisions decisions_start decisions_end loaded_decisions) in
    (forall row, In row subjects ->
       (decisions_start <= Subject.timestamp row <= decisions_end)%Z
       /\ exists d, In d loaded_decisions
                    /\ (decisions_start <= Decision.timestamp d <= decisions_end)%Z
                    /\ row = select_subject subject_id d)
    /\ length subjects
       <= length (decisions decisions_start decisions_end loaded_decisions)
    /\ length subjects <= length loaded_decisions.
Proof.
  intros subject_id ws we loaded subjects.
  pose proof (experiment_subjects_perm subject_id (decisions ws we loaded)) as Hp.
  assert (Hlen : length subjects <= length (decisions ws we loaded)).
  { unfold subjects. rewrite (Permutation_length Hp), length_map.
    unfold first_decisions. apply filter_length_le. }
  split; [| split; [exact Hlen |]].
  - intros row Hrow. eapply Permutation_in in Hrow; [| exact Hp].
    apply in_map_iff in Hrow as (d & <- & Hd).
    unfold first_decisions in Hd. apply filter_In in Hd as [Hd _].
    unfold decisions, window_filter in Hd. apply filter_In in Hd as [Hd Hb].
    apply between_spec in Hb. split; [exact Hb |]. now exists d.
  - etransitivity; [exact Hlen |]. unfold decisions, window_filter.
    apply filter_length_le.
Qed.

(** The row of s2 in the scenario lies in the window [0, 100]. *)
Lemma experiment_subjects_from_window_witness :
  (0 <= Subject.timestamp (Subject.mk "s2" "e1" "vA" 15) <= 100)%Z.
Proof.
  apply (proj1 (experiment_subjects_from_window visitor_id_column 0 100 Scenario.decisions)).
  vm_compute. tauto.
Defined.

End SubjectTableProofs.
